(** * m_totp: Base32 codec and HOTP/TOTP engine (InspIRCd 2.0 contrib module)

    A shallow embedding of [src/2.0/m_totp.cpp]: the [Base32] class
    ([Encode], [Decode]) and the [TOTP] class ([Generate], [Validate]).

    Conventions.
    - A [std::string] is a [list ascii]; a byte value is a [Z] in [0, 256).
    - Machine integers are [Z] with the wrap-around written out
      ([u32] for [unsigned int], [u64] for [size_t] / [unsigned long]).
      Sizes of strings and the indices that count their characters
      ([len], [blocks], [count]) stay far below [2^64] for any string that
      fits in memory and are not wrapped.
    - Operations whose behaviour C++ leaves undefined (a write through
      [operator[]] outside the string, a shift by at least the width of the
      operand, signed overflow) and the one library exception
      ([std::length_error]) are made explicit in the [outcome] type. *)

From Stdlib Require Import String Ascii ZArith List Lia ZifyNat Bool.
Import ListNotations.
Local Open Scope Z_scope.

(** ** Outcomes of a run *)

Inductive fault : Type :=
| OutOfRange (index size : Z)   (* s[index] with index outside a string of that size *)
| ShiftTooWide (amount : Z)     (* x >> amount on a 32-bit operand, amount >= 32 *)
| SignedOverflow (value : Z)    (* signed arithmetic leaving the range of its type *)
| LengthError.                  (* std::length_error thrown by std::string *)

Inductive outcome (A : Type) : Type :=
| Ok (a : A)
| Undefined (f : fault).
Arguments Ok {A} a.
Arguments Undefined {A} f.

Definition bind {A B : Type} (m : outcome A) (k : A -> outcome B) : outcome B :=
  match m with
  | Ok a => k a
  | Undefined f => Undefined f
  end.

Notation "x <- m ;; k" := (bind m (fun x => k))
  (at level 61, m at next level, right associativity).

(** ** Machine integers and characters *)

Definition u32 (z : Z) : Z := z mod 2 ^ 32.
Definition u64 (z : Z) : Z := z mod 2 ^ 64.

Definition INT_MIN : Z := - 2 ^ 31.
Definition INT_MAX : Z := 2 ^ 31 - 1.
Definition LONG_MIN : Z := - 2 ^ 63.
Definition LONG_MAX : Z := 2 ^ 63 - 1.

(** [a - b] on two sizes ([size_t]): wraps when [b] exceeds [a]. *)
Definition size_sub (a b : Z) : Z := if b <=? a then a - b else a - b + 2 ^ 64.

(** [(unsigned char) c] *)
Definition uchar (c : ascii) : Z := Z.of_N (N_of_ascii c).

(** Conversion of an integer to [char]: the low 8 bits. *)
Definition to_char (z : Z) : ascii := ascii_of_N (Z.to_N (z mod 256)).

(** [x >> amount] for [unsigned int x]. *)
Definition shr32 (x amount : Z) : outcome Z :=
  if amount <? 32 then Ok (Z.shiftr x amount) else Undefined (ShiftTooWide amount).

(** [v.resize(n)] on a vector or string: truncate or fill with [d]. *)
Definition resize {A : Type} (d : A) (n : nat) (l : list A) : list A :=
  firstn n l ++ repeat d (n - length l).

(** [s[i] = c] on a non-const [std::string]. *)
Definition str_set (s : list ascii) (i : Z) (c : ascii) : outcome (list ascii) :=
  if (0 <=? i) && (i <? Z.of_nat (length s))
  then Ok (firstn (Z.to_nat i) s ++ c :: skipn (S (Z.to_nat i)) s)
  else Undefined (OutOfRange i (Z.of_nat (length s))).

(** [s[i]] read on a [std::string]: the element, or the terminating
    null character at [i = s.size()]. *)
Definition str_get (s : list ascii) (i : Z) : outcome ascii :=
  if (0 <=? i) && (i <=? Z.of_nat (length s))
  then Ok (nth (Z.to_nat i) s zero)
  else Undefined (OutOfRange i (Z.of_nat (length s))).

(** ** class Base32 *)

Module Base32.

Definition Base32Chars : list ascii :=
  list_ascii_of_string "ABCDEFGHIJKLMNOPQRSTUVWXYZ234567".

(** [Base32Chars[i]] (a const read). *)
Definition Base32Chars_at (i : Z) : ascii := nth (Z.to_nat i) Base32Chars zero.

Definition npos : Z := 2 ^ 64 - 1.

Fixpoint find_from (c : ascii) (l : list ascii) (i : Z) : Z :=
  match l with
  | [] => npos
  | x :: l' => if Ascii.eqb x c then i else find_from c l' (i + 1)
  end.

(** [Base32Chars.find(c)] *)
Definition Base32Chars_find (c : ascii) : Z := find_from c Base32Chars 0.

(** One iteration of the block loop of [Encode]: the eight symbols of
    block [i] of [data]. *)
Definition Encode_block (data : list Z) (i : nat) : list ascii :=
  let d := fun k : nat => nth (i * 5 + k) data 0 in
  [ Base32Chars_at (Z.shiftr (d 0%nat) 3);
    Base32Chars_at (Z.lor (Z.shiftl (Z.land (d 0%nat) 7) 2) (Z.shiftr (d 1%nat) 6));
    Base32Chars_at (Z.shiftr (Z.land (d 1%nat) 63) 1);
    Base32Chars_at (Z.lor (Z.shiftl (Z.land (d 1%nat) 1) 4) (Z.shiftr (d 2%nat) 4));
    Base32Chars_at (Z.lor (Z.shiftl (Z.land (d 2%nat) 15) 1) (Z.shiftr (d 3%nat) 7));
    Base32Chars_at (Z.shiftr (Z.land (d 3%nat) 127) 2);
    Base32Chars_at (Z.lor (Z.shiftl (Z.land (d 3%nat) 3) 3) (Z.shiftr (d 4%nat) 5));
    Base32Chars_at (Z.land (d 4%nat) 31) ].

(** [for (size_t i = ...; i < blocks; ++i) ret += ...], with [n = blocks - i]
    iterations to go. *)
Fixpoint Encode_loop (data : list Z) (i n : nat) (ret : list ascii) : list ascii :=
  match n with
  | O => ret
  | S n' => Encode_loop data (S i) n' (ret ++ Encode_block data i)
  end.

Definition padding_of (rest : nat) : Z :=
  if (rest =? 1)%nat then 6 else
  if (rest =? 2)%nat then 3 else
  if (rest =? 3)%nat then 3 else
  if (rest =? 4)%nat then 1 else 0.

(** The vector [data] as the block loop sees it. *)
Definition Encode_data (input : list ascii) (len : nat) : list Z :=
  let rest := (len mod 5)%nat in
  let data := resize 0 len (map uchar input) in
  if (rest =? 0)%nat then data
  else resize 0 (length data + 5 - rest) data.

Definition Encode_blocks (len : nat) : nat :=
  let blocks := (len / 5)%nat in
  if (len mod 5 =? 0)%nat then blocks else S blocks.

(** The string [ret] when the block loop is left. *)
Definition Encode_symbols (input : list ascii) (len : nat) : list ascii :=
  Encode_loop (Encode_data input len) 0 (Encode_blocks len) [].

(** [Base32::Encode(input, len)]; [len = 0] is the default argument. *)
Definition Encode (input : list ascii) (len : nat) : list ascii :=
  let len := if (len =? 0)%nat then length input else len in
  let rest := (len mod 5)%nat in
  let ret := Encode_symbols input len in
  let padding := padding_of rest in
  let ret := firstn (Z.to_nat (size_sub (Z.of_nat (length ret)) padding)) ret in
  ret ++ repeat "="%char (Z.to_nat padding).

Record DecodeState : Type := mkDecodeState {
  ret : list ascii;
  left : Z;
  count : Z;
  buffer : Z
}.

(** The body of the scanning loop of [Decode] below the [continue]:
    a valid character of alphabet index [val]. *)
Definition Decode_push (st : DecodeState) (val : Z) : outcome DecodeState :=
  let buffer := u32 (Z.shiftl (buffer st) 5) in
  let buffer := u32 (Z.lor buffer val) in
  let left := u64 (left st + 5) in
  if 8 <=? left then
    v <- shr32 buffer (u64 (left - 8)) ;;
    r <- str_set (ret st) (count st) (to_char (Z.land v 255)) ;;
    Ok (mkDecodeState r (u64 (left - 8)) (count st + 1) buffer)
  else Ok (mkDecodeState (ret st) left (count st) buffer).

(** The body of the scanning loop of [Decode] for one character. *)
Definition Decode_step (st : DecodeState) (c : ascii) : outcome DecodeState :=
  let val := Base32Chars_find c in
  if 32 <=? val then Ok st else Decode_push st val.

Fixpoint Decode_loop (st : DecodeState) (data : list ascii) : outcome DecodeState :=
  match data with
  | [] => Ok st
  | c :: data' => st' <- Decode_step st c ;; Decode_loop st' data'
  end.

Definition Decode_init (data : list ascii) : DecodeState :=
  mkDecodeState (resize zero (length data * 5 / 8) []) 0 0 0.

(** The part of [Decode] after the loop. *)
Definition Decode_finish (st : DecodeState) : outcome (list ascii) :=
  if left st =? 0 then Ok (resize zero (Z.to_nat (count st)) (ret st))
  else
    let buffer := u32 (Z.shiftl (buffer st) 5) in
    v <- shr32 buffer (u64 (left st - 3)) ;;
    r <- str_set (ret st) (count st) (to_char (Z.land v 255)) ;;
    Ok (resize zero (Z.to_nat (count st + 1)) r).

(** [Base32::Decode(data)] *)
Definition Decode (data : list ascii) : outcome (list ascii) :=
  st <- Decode_loop (Decode_init data) data ;;
  Decode_finish st.

End Base32.

(** ** class TOTP *)

Module TOTP.

(** The [HashProvider] interface of the host ([hash.h]), as far as
    [TOTP] uses it: the [hmac] method and the [out_size] member. *)
Record HashProvider : Type := mkHashProvider {
  hmac : list ascii -> list ascii -> list ascii;
  out_size : Z
}.

(** The members of a [TOTP] object: [Hash] is a [dynamic_reference] that
    is null ([None]) while the configured provider is not loaded. *)
Record t : Type := mkTOTP {
  Hash : option HashProvider;
  Window : Z
}.

(** [v[i] = x] on the 8-element [challenge] vector ([i] is always below 8). *)
Definition vec_set (v : list Z) (i : nat) (x : Z) : list Z :=
  if (i <? length v)%nat then firstn i v ++ x :: skipn (S i) v else v.

(** [for (int i = 8; i--; time >>= 8) challenge[i] = time;] *)
Fixpoint challenge_loop (i : nat) (challenge : list Z) (time : Z) : list Z :=
  match i with
  | O => challenge
  | S i' => challenge_loop i' (vec_set challenge i' (time mod 256)) (Z.shiftr time 8)
  end.

Definition make_challenge (time : Z) : list Z :=
  challenge_loop 8 (repeat 0 8) time.

(** [for (int i = ...; i < 4; ++i) { truncatedHash <<= 8; truncatedHash |= (unsigned char)hash[offset + i]; }]
    with [n = 4 - i] iterations to go. *)
Fixpoint truncate_loop (hash : list ascii) (offset i : Z) (n : nat) (truncatedHash : Z)
  : outcome Z :=
  match n with
  | O => Ok truncatedHash
  | S n' =>
      let truncatedHash := u32 (Z.shiftl truncatedHash 8) in
      c <- str_get hash (offset + i) ;;
      truncate_loop hash offset (i + 1) n' (u32 (Z.lor truncatedHash (uchar c)))
  end.

Definition digit_char (d : Z) : ascii := ascii_of_N (Z.to_N (48 + d)).

Fixpoint dec_digits (fuel : nat) (n : Z) : list ascii :=
  match fuel with
  | O => []
  | S fuel' =>
      (if n <? 10 then [] else dec_digits fuel' (n / 10)) ++ [digit_char (n mod 10)]
  end.

(** Modelled from the spec: [ConvToStr] is a helper of the host
    ([inspircd.h], outside this module's source file); the value is
    "rendered as a decimal string".  For an [unsigned int] the numeral
    has at most 10 digits, and no leading zero. *)
Definition ConvToStr (n : Z) : list ascii := dec_digits 10 n.

(** An upper bound of [std::string::max_size()]; the model
    only needs it to lie between 6 and [2^64 - 11]. *)
Definition max_size : Z := 2 ^ 62.

(** [ret.insert(0, n, c)] *)
Definition str_insert_front (ret : list ascii) (n : Z) (c : ascii) : outcome (list ascii) :=
  if n + Z.of_nat (length ret) <=? max_size
  then Ok (repeat c (Z.to_nat n) ++ ret)
  else Undefined LengthError.

(** Lines 143-156 of [Generate]: from the digest to the code. *)
Definition Generate_code (hp : HashProvider) (hash : list ascii) : outcome (list ascii) :=
  c <- str_get hash (u32 (out_size hp - 1)) ;;
  let offset := Z.land (uchar c) 15 in
  truncatedHash <- truncate_loop hash offset 0 4 0 ;;
  let truncatedHash := Z.land truncatedHash 2147483647 in
  let truncatedHash := truncatedHash mod 1000000 in
  let ret := ConvToStr truncatedHash in
  str_insert_front ret (u64 (6 - Z.of_nat (length ret))) "0"%char.

(** [TOTP::Generate(secret, time)]; [time] is an [unsigned long]. *)
Definition Generate (self : t) (secret : list ascii) (time : Z) : outcome (list ascii) :=
  match Hash self with
  | None => Ok []
  | Some hp =>
      let challenge := make_challenge (u64 time) in
      key <- Base32.Decode secret ;;
      let hash := hmac hp key (map to_char challenge) in
      Generate_code hp hash
  end.

(** [a == b] on strings *)
Fixpoint str_eqb (a b : list ascii) : bool :=
  match a, b with
  | [], [] => true
  | x :: a', y :: b' => Ascii.eqb x y && str_eqb a' b'
  | _, _ => false
  end.

(** [for (; time < time_end; ++time) if (Generate(secret, time) == code) return true;]
    with [n = time_end - time] iterations to go. *)
Fixpoint Validate_loop (self : t) (secret code : list ascii) (time : Z) (n : nat)
  : outcome bool :=
  match n with
  | O => Ok false
  | S n' =>
      g <- Generate self secret time ;;
      if str_eqb g code then Ok true
      else Validate_loop self secret code (time + 1) n'
  end.

Definition int_result (z : Z) : outcome Z :=
  if (INT_MIN <=? z) && (z <=? INT_MAX) then Ok z else Undefined (SignedOverflow z).

Definition long_result (z : Z) : outcome Z :=
  if (LONG_MIN <=? z) && (z <=? LONG_MAX) then Ok z else Undefined (SignedOverflow z).

(** [TOTP::Validate(secret, code)]; [now] is the value that
    [ServerInstance->Time()] returns (a [time_t]). *)
Definition Validate (self : t) (now : Z) (secret code : list ascii) : outcome bool :=
  w1 <- int_result (30 * Window self) ;;
  d1 <- long_result (now - w1) ;;
  let time := u64 (Z.quot d1 30) in
  w2 <- int_result (30 * Window self) ;;
  d2 <- long_result (now + w2) ;;
  let time_end := u64 (Z.quot d2 30) in
  Validate_loop self secret code time (Z.to_nat (time_end - time)).

End TOTP.

Definition lit (s : string) : list ascii := list_ascii_of_string s.

(** A toy provider for running the engine: the "digest" is the reversed
    message followed by the key, cut or zero-filled to 20 bytes. *)
Definition toy_provider : TOTP.HashProvider :=
  TOTP.mkHashProvider (fun key msg => resize zero 20 (rev msg ++ key)) 20.

(** A provider with digests of 16 bytes, the size of the host's [hash/md5]
    which a [totp] tag with [hash] set to md5 selects: every digest byte is [0xFF]. *)
Definition short_provider : TOTP.HashProvider :=
  TOTP.mkHashProvider (fun _ _ => repeat "255"%char 16) 16.

Definition toy (w : Z) : TOTP.t := TOTP.mkTOTP (Some toy_provider) w.
Definition unloaded (w : Z) : TOTP.t := TOTP.mkTOTP None w.

(** ** class CommandTOTP: the secret of GenerateCode *)

Module CommandTOTP.

(** [for (unsigned char i = ...; i < 10; ++i) secret[i] = (unsigned char)ServerInstance->GenRandomInt(0xff);]
    with [n = 10 - i] iterations to go; [rnd k] is what the [k]-th call
    of the host's [GenRandomInt] returns. *)
Fixpoint GenerateCode_fill (secret : list ascii) (i n : nat) (rnd : nat -> Z)
  : outcome (list ascii) :=
  match n with
  | O => Ok secret
  | S n' =>
      s <- str_set secret (Z.of_nat i) (to_char (rnd i)) ;;
      GenerateCode_fill s (S i) n' rnd
  end.

(** Lines 187-190 and 193 of [GenerateCode]: the bytes drawn, and the
    string [Base32::Encode(secret, 10)] that is handed to [ShowCode]
    (the notices that surround it are not modelled). *)
Definition GenerateCode_secret (rnd : nat -> Z) : outcome (list ascii * list ascii) :=
  secret <- GenerateCode_fill (resize zero 10 []) 0 10 rnd ;;
  Ok (secret, Base32.Encode secret 10).

End CommandTOTP.

(** ** class ModuleTOTP: OnPreCommand *)

Module ModuleTOTP.

Inductive ModResult : Type := MOD_RES_PASSTHRU | MOD_RES_DENY.

(** An oper block as far as the module reads it:
    [oper_block->readString("totpsecret", secret)] yields [Some secret],
    or [None] when it returns false. *)
Record OperInfo : Type := mkOperInfo {
  totpsecret : option (list ascii)
}.

(** The members of [LocalUser] that [OnPreCommand] touches;
    [numerics] collects what [WriteNumeric] sends, oldest first. *)
Record LocalUser : Type := mkLocalUser {
  nick : list ascii;
  CommandFloodPenalty : Z;
  numerics : list (Z * list ascii)
}.

(** The module object: its [totp] member, and the map
    [ServerInstance->Config->oper_blocks] given by its [find]. *)
Record t : Type := mkModule {
  totp : TOTP.t;
  oper_blocks : list ascii -> option OperInfo
}.

(** [s.rfind(c)]: [Some i] for the index [i] of the last [c] in [s],
    [None] for [std::string::npos]. *)
Fixpoint rfind (c : ascii) (s : list ascii) : option nat :=
  match s with
  | [] => None
  | x :: s' =>
      match rfind c s' with
      | Some i => Some (S i)
      | None => if Ascii.eqb x c then Some 0%nat else None
      end
  end.

(** [user->WriteNumeric(numeric, "%s <text>", user->nick.c_str())] *)
Definition WriteNumeric (user : LocalUser) (numeric : Z) (text : list ascii) : LocalUser :=
  mkLocalUser (nick user) (CommandFloodPenalty user)
    (numerics user ++ [(numeric, nick user ++ text)]).

(** [parameters[i] = x] for [i] inside the vector. *)
Definition set_parameter (parameters : list (list ascii)) (i : nat) (x : list ascii)
  : list (list ascii) :=
  if (i <? length parameters)%nat
  then firstn i parameters ++ x :: skipn (S i) parameters
  else parameters.

(** [ModuleTOTP::OnPreCommand(command, parameters, user, validated, original_line)]:
    the result, the vector [parameters] and the user afterwards;
    [now] is what [ServerInstance->Time()] returns. *)
Definition OnPreCommand (self : t) (now : Z) (command : list ascii)
  (parameters : list (list ascii)) (user : LocalUser) (validated : bool)
  : outcome (ModResult * list (list ascii) * LocalUser) :=
  if validated && TOTP.str_eqb command (lit "OPER") && (1 <? length parameters)%nat then
    match oper_blocks self (nth 0 parameters []) with
    | None => Ok (MOD_RES_PASSTHRU, parameters, user)
    | Some info =>
        match totpsecret info with
        | None => Ok (MOD_RES_PASSTHRU, parameters, user)
        | Some secret =>
            match rfind " "%char (nth 1 parameters []) with
            | None =>
                Ok (MOD_RES_DENY, parameters,
                    WriteNumeric user 491 (lit " :This oper login requires a TOTP token."))
            | Some pos =>
                let otp := skipn (pos + 1) (nth 1 parameters []) in
                let parameters :=
                  set_parameter parameters 1 (firstn pos (nth 1 parameters [])) in
                valid <- TOTP.Validate (totp self) now secret otp ;;
                if valid then Ok (MOD_RES_PASSTHRU, parameters, user)
                else
                  let user := WriteNumeric user 491 (lit " :Invalid oper credentials") in
                  let user := mkLocalUser (nick user) (u32 (CommandFloodPenalty user + 10000))
                                (numerics user) in
                  Ok (MOD_RES_DENY, parameters, user)
            end
        end
    end
  else Ok (MOD_RES_PASSTHRU, parameters, user).

End ModuleTOTP.

(** ** Definitions used to state and prove the properties *)

(** The alphabet indices of the valid characters of a string, in order. *)
Definition valid_values (data : list ascii) : list Z :=
  filter (fun v => v <? 32) (map Base32.Base32Chars_find data).

(** The eight 5-bit groups of a 5-byte block, written with [/] and [mod]. *)
Definition block_values (d0 d1 d2 d3 d4 : Z) : list Z :=
  [ d0 / 8; (d0 mod 8) * 4 + d1 / 64; (d1 mod 64) / 2; (d1 mod 2) * 16 + d2 / 16;
    (d2 mod 16) * 2 + d3 / 128; (d3 mod 128) / 4; (d3 mod 4) * 8 + d4 / 32; d4 mod 32 ].

(** The 5-bit groups of the first [n] blocks of [data]. *)
Fixpoint symbols_of (data : list Z) (n : nat) : list Z :=
  match n with
  | O => []
  | S n' =>
      block_values (nth 0 data 0) (nth 1 data 0) (nth 2 data 0) (nth 3 data 0) (nth 4 data 0)
        ++ symbols_of (skipn 5 data) n'
  end.

(** Regrouping a stream of 5-bit values into bytes: [p] holds the [left]
    pending bits.  The result is the bytes given out, then the pending
    bits and their number at the end of the stream. *)
Fixpoint regroup (p left : Z) (vals : list Z) : list Z * (Z * Z) :=
  match vals with
  | [] => ([], (p, left))
  | v :: vals' =>
      let p' := p * 32 + v in
      let left' := left + 5 in
      if 8 <=? left' then
        let '(out, fin) := regroup (p' mod 2 ^ (left' - 8)) (left' - 8) vals' in
        (p' / 2 ^ (left' - 8) :: out, fin)
      else regroup p' left' vals'
  end.

(** The length that [Encode] works with: the argument, or the length of
    the input when the argument is 0. *)
Definition effective_len (input : list ascii) (len : nat) : nat :=
  if (len =? 0)%nat then length input else len.

(** The padding table of the specification, by [length mod 5]. *)
Definition padding_table (r : nat) : nat :=
  match r with
  | 0 => 0
  | 1 => 6
  | 2 => 3
  | 3 => 3
  | 4 => 1
  | _ => 0
  end%nat.

(** What the scanning loop of [Decode] keeps true. *)
Definition decode_inv (st : Base32.DecodeState) : Prop :=
  0 <= Base32.left st < 8 /\ 0 <= Base32.buffer st < 2 ^ 32 /\ 0 <= Base32.count st.

(** The scanning loop of [Decode] on the alphabet indices of the valid
    characters. *)
Fixpoint push_all (st : Base32.DecodeState) (vals : list Z) : outcome Base32.DecodeState :=
  match vals with
  | [] => Ok st
  | v :: vals' => st' <- Base32.Decode_push st v ;; push_all st' vals'
  end.

(** The value of a byte sequence read as a big-endian unsigned integer. *)
Definition big_endian (bytes : list Z) : Z :=
  fold_left (fun acc b => acc * 256 + b) bytes 0.

(** The 8-byte big-endian serialization of a 64-bit counter, most
    significant byte first. *)
Definition be8 (n : Z) : list Z :=
  [ n / 2 ^ 56 mod 256; n / 2 ^ 48 mod 256; n / 2 ^ 40 mod 256; n / 2 ^ 32 mod 256;
    n / 2 ^ 24 mod 256; n / 2 ^ 16 mod 256; n / 2 ^ 8 mod 256; n mod 256 ].

(** Dynamic truncation of RFC 4226, section 5.3, on the bytes of a digest,
    followed by the reduction to 6 decimal digits. *)
Definition dynamic_truncation (digest : list Z) : Z :=
  let offset := Z.land (last digest 0) 15 in
  let word := big_endian (firstn 4 (skipn (Z.to_nat offset) digest)) in
  (Z.land word 2147483647) mod 1000000.

(** The 6-character decimal rendering of [v], zeros leading. *)
Definition six_digits (v : Z) : list ascii :=
  map (fun i => TOTP.digit_char (v / 10 ^ i mod 10)) [5; 4; 3; 2; 1; 0].

Definition is_digit (c : ascii) : Prop := 48 <= uchar c <= 57.

(** The number that a string of decimal digits denotes. *)
Definition decimal_value (s : list ascii) : Z :=
  fold_left (fun acc c => acc * 10 + (uchar c - 48)) s 0.

(** A provider whose digests have [out_size] bytes, enough of them for
    the truncation to read bytes [offset .. offset + 3] with [offset <= 15]. *)
Definition digest_sized (hp : TOTP.HashProvider) : Prop :=
  19 <= TOTP.out_size hp < 2 ^ 32 /\
  forall key msg : list ascii,
    Z.of_nat (length (TOTP.hmac hp key msg)) = TOTP.out_size hp.

(** The window stays inside the machine types ([int] for [30 * Window],
    [time_t] for the sum and the difference) and does not reach before
    the epoch. *)
Definition window_in_range (now w : Z) : Prop :=
  INT_MIN <= 30 * w <= INT_MAX /\
  0 <= now - 30 * w <= LONG_MAX /\
  0 <= now + 30 * w <= LONG_MAX.

Definition is_byte (z : Z) : Prop := 0 <= z < 256.
Definition is_value (z : Z) : Prop := 0 <= z < 32.

(** [s'] is [s] with characters outside the alphabet inserted. *)
Inductive junk_inserted : list ascii -> list ascii -> Prop :=
| ji_nil : junk_inserted [] []
| ji_keep (c : ascii) (s s' : list ascii) :
    junk_inserted s s' -> junk_inserted (c :: s) (c :: s')
| ji_junk (c : ascii) (s s' : list ascii) :
    ~ In c Base32.Base32Chars -> junk_inserted s s' -> junk_inserted s (c :: s').

(** The five bytes that eight 5-bit groups hold, written with [/] and [mod]. *)
Definition bytes_of_values (v0 v1 v2 v3 v4 v5 v6 v7 : Z) : list Z :=
  [ v0 * 8 + v1 / 4; (v1 mod 4) * 64 + v2 * 2 + v3 / 16; (v3 mod 16) * 16 + v4 / 2;
    (v4 mod 2) * 128 + v5 * 4 + v6 / 8; (v6 mod 8) * 32 + v7 ].

(** The alphabet index by character code: [A-Z] are 0 to 25 and [2-7]
    are 26 to 31; every other character has none. *)
Definition index_by_code (c : ascii) : Z :=
  if (65 <=? uchar c) && (uchar c <=? 90) then uchar c - 65
  else if (50 <=? uchar c) && (uchar c <=? 55) then uchar c - 24
  else Base32.npos.

(** The user after [OnPreCommand] has refused a token: the numeric 491
    is sent and the flood penalty grows by 10000. *)
Definition penalised (user : ModuleTOTP.LocalUser) : ModuleTOTP.LocalUser :=
  ModuleTOTP.mkLocalUser (ModuleTOTP.nick user)
    (u32 (ModuleTOTP.CommandFloodPenalty user + 10000))
    (ModuleTOTP.numerics user ++
       [(491, ModuleTOTP.nick user ++ lit " :Invalid oper credentials")]).

(** A module for running [OnPreCommand]: every oper block has the
    given [totpsecret]. *)
Definition toy_module (self : TOTP.t) (secret : list ascii) : ModuleTOTP.t :=
  ModuleTOTP.mkModule self (fun _ => Some (ModuleTOTP.mkOperInfo (Some secret))).

Definition toy_user (penalty : Z) : ModuleTOTP.LocalUser :=
  ModuleTOTP.mkLocalUser (lit "nick") penalty [].

(** * Properties *)

(** ** Bit operations as arithmetic *)

Lemma land_shiftl_low (a b k : Z) :
  0 <= k -> 0 <= b < 2 ^ k -> Z.land (Z.shiftl a k) b = 0.
Proof.
  intros Hk Hb. apply Z.bits_inj'. intros n Hn.
  rewrite Z.land_spec, Z.bits_0.
  destruct (Z.ltb_spec n k) as [Hlt | Hge].
  - rewrite Z.shiftl_spec_low by lia. reflexivity.
  - assert (Hbn : Z.testbit b n = false).
    { destruct (Z.eq_dec b 0) as [-> | Hnz]; [apply Z.bits_0 |].
      apply Z.bits_above_log2; [lia |].
      apply Z.log2_lt_pow2; [lia |].
      apply Z.lt_le_trans with (2 ^ k); [lia |].
      apply Z.pow_le_mono_r; lia. }
    rewrite Hbn. apply andb_false_r.
Qed.

Lemma lor_shiftl_add (a b k : Z) :
  0 <= k -> 0 <= b < 2 ^ k -> Z.lor (Z.shiftl a k) b = a * 2 ^ k + b.
Proof.
  intros Hk Hb.
  rewrite <- Z.lxor_lor by (apply land_shiftl_low; assumption).
  rewrite <- Z.add_nocarry_lxor by (apply land_shiftl_low; assumption).
  rewrite Z.shiftl_mul_pow2 by assumption. reflexivity.
Qed.

Lemma land_low_bits (a k : Z) : 0 <= k -> Z.land a (2 ^ k - 1) = a mod 2 ^ k.
Proof.
  intros Hk. replace (2 ^ k - 1) with (Z.ones k).
  - apply Z.land_ones; assumption.
  - rewrite Z.ones_equiv. lia.
Qed.

Lemma land_mask (a k m : Z) : m = 2 ^ k - 1 -> 0 <= k -> Z.land a m = a mod 2 ^ k.
Proof.
  intros -> Hk. apply land_low_bits. exact Hk.
Qed.

(** Numerals for the powers of two in a goal, then linear arithmetic
    over [/] and [mod]. *)
Ltac pow2_norm :=
  repeat match goal with
         | |- context [2 ^ Zpos ?k] =>
             let v := eval vm_compute in (2 ^ Zpos k) in
             change (2 ^ Zpos k) with v
         | H : context [2 ^ Zpos ?k] |- _ =>
             let v := eval vm_compute in (2 ^ Zpos k) in
             change (2 ^ Zpos k) with v in H
         end.

(** Evaluates the closed exponents of 2 in the goal. *)
Ltac closed_exponents :=
  repeat match goal with
         | |- context [2 ^ ?e] =>
             lazymatch e with
             | Zpos _ => fail
             | Z0 => fail
             | _ => let v := eval vm_compute in e in
                    lazymatch v with
                    | Zpos _ => change e with v
                    | Z0 => change e with v
                    end
             end
         end.

Ltac div_mod_lia := pow2_norm; Z.div_mod_to_equations; lia.
Ltac nat_div_lia := zify; Z.div_mod_to_equations; lia.

Lemma uchar_range (c : ascii) : 0 <= uchar c < 256.
Proof.
  unfold uchar. pose proof (N_ascii_bounded c). lia.
Qed.

Lemma to_char_uchar (c : ascii) : to_char (uchar c) = c.
Proof.
  unfold to_char. pose proof (uchar_range c) as H.
  rewrite Z.mod_small by assumption.
  unfold uchar. rewrite N2Z.id. apply ascii_N_embedding.
Qed.

(** ** The alphabet *)

Ltac below_32 n :=
  do 32 (destruct n as [| n]; [vm_compute; try reflexivity; auto 40 |]).

Lemma value_cases (i : Z) : is_value i -> exists n : nat, i = Z.of_nat n /\ (n < 32)%nat.
Proof.
  intros H. exists (Z.to_nat i). unfold is_value in H. lia.
Qed.

Lemma find_at (i : Z) :
  is_value i -> Base32.Base32Chars_find (Base32.Base32Chars_at i) = i.
Proof.
  intros H. destruct (value_cases i H) as (n & -> & Hn).
  below_32 n. lia.
Qed.

Lemma at_in_alphabet (i : Z) :
  is_value i -> In (Base32.Base32Chars_at i) Base32.Base32Chars.
Proof.
  intros H. destruct (value_cases i H) as (n & -> & Hn).
  unfold Base32.Base32Chars_at. rewrite Nat2Z.id.
  apply nth_In. exact Hn.
Qed.

Lemma find_from_range (c : ascii) (l : list ascii) (i : Z) :
  Base32.find_from c l i = Base32.npos \/
  (i <= Base32.find_from c l i < i + Z.of_nat (length l)).
Proof.
  revert i. induction l as [| x l IH]; intros i; simpl.
  - left. reflexivity.
  - destruct (Ascii.eqb x c).
    + right. lia.
    + destruct (IH (i + 1)) as [H | H]; [left; exact H | right; lia].
Qed.

Lemma find_from_In (c : ascii) (l : list ascii) (i : Z) :
  In c l -> i <= Base32.find_from c l i < i + Z.of_nat (length l).
Proof.
  revert i. induction l as [| x l IH]; intros i Hin; simpl.
  - contradiction.
  - destruct (Ascii.eqb_spec x c) as [-> | Hne].
    + lia.
    + destruct Hin as [Heq | Hin]; [congruence |].
      specialize (IH (i + 1) Hin). lia.
Qed.

Lemma find_from_not_In (c : ascii) (l : list ascii) (i : Z) :
  ~ In c l -> Base32.find_from c l i = Base32.npos.
Proof.
  revert i. induction l as [| x l IH]; intros i Hnin; simpl.
  - reflexivity.
  - destruct (Ascii.eqb_spec x c) as [-> | Hne].
    + exfalso. apply Hnin. left. reflexivity.
    + apply IH. intros Hin. apply Hnin. right. exact Hin.
Qed.

Lemma find_valid_iff (c : ascii) :
  (Base32.Base32Chars_find c <? 32) = true <-> In c Base32.Base32Chars.
Proof.
  unfold Base32.Base32Chars_find. split.
  - intros H. destruct (in_dec ascii_dec c Base32.Base32Chars) as [Hin | Hnin]; [exact Hin |].
    rewrite (find_from_not_In c _ 0 Hnin) in H. vm_compute in H. discriminate.
  - intros Hin. pose proof (find_from_In c _ 0 Hin) as H.
    change (Z.of_nat (length Base32.Base32Chars)) with 32 in H. lia.
Qed.

Lemma find_junk (c : ascii) :
  ~ In c Base32.Base32Chars -> (32 <=? Base32.Base32Chars_find c) = true.
Proof.
  intros H. unfold Base32.Base32Chars_find.
  rewrite (find_from_not_In c _ 0 H). reflexivity.
Qed.

Lemma find_nonneg (c : ascii) : 0 <= Base32.Base32Chars_find c.
Proof.
  unfold Base32.Base32Chars_find.
  destruct (find_from_range c Base32.Base32Chars 0) as [H | H].
  - rewrite H. vm_compute. discriminate.
  - lia.
Qed.

(** ** Encode: the block loop *)

Lemma block_values_range (d0 d1 d2 d3 d4 : Z) :
  is_byte d0 -> is_byte d1 -> is_byte d2 -> is_byte d3 -> is_byte d4 ->
  Forall is_value (block_values d0 d1 d2 d3 d4).
Proof.
  unfold is_byte, is_value, block_values. intros.
  repeat constructor; Z.div_mod_to_equations; lia.
Qed.

Lemma Encode_block_values (data : list Z) (i : nat) :
  Forall is_byte data ->
  Base32.Encode_block data i =
    map Base32.Base32Chars_at (symbols_of (skipn (i * 5) data) 1).
Proof.
  intros Hdata.
  assert (Hnth : forall k, is_byte (nth (i * 5 + k) data 0)).
  { intros k. destruct (Nat.lt_ge_cases (i * 5 + k) (length data)) as [Hlt | Hge].
    - rewrite Forall_forall in Hdata. apply Hdata. apply nth_In. exact Hlt.
    - rewrite nth_overflow by exact Hge. unfold is_byte. lia. }
  unfold Base32.Encode_block, symbols_of, block_values.
  rewrite !nth_skipn, app_nil_r. cbn [map].
  pose proof (Hnth 0%nat) as H0. pose proof (Hnth 1%nat) as H1.
  pose proof (Hnth 2%nat) as H2. pose proof (Hnth 3%nat) as H3.
  pose proof (Hnth 4%nat) as H4.
  generalize dependent (nth (i * 5 + 0) data 0). intros d0 H0.
  generalize dependent (nth (i * 5 + 1) data 0). intros d1 H1.
  generalize dependent (nth (i * 5 + 2) data 0). intros d2 H2.
  generalize dependent (nth (i * 5 + 3) data 0). intros d3 H3.
  generalize dependent (nth (i * 5 + 4) data 0). intros d4 H4.
  unfold is_byte in *.
  rewrite (land_mask d0 3 7) by (reflexivity || lia).
  rewrite (land_mask d1 6 63) by (reflexivity || lia).
  rewrite (land_mask d1 1 1) by (reflexivity || lia).
  rewrite (land_mask d2 4 15) by (reflexivity || lia).
  rewrite (land_mask d3 7 127) by (reflexivity || lia).
  rewrite (land_mask d3 2 3) by (reflexivity || lia).
  rewrite (land_mask d4 5 31) by (reflexivity || lia).
  rewrite !Z.shiftr_div_pow2 by lia.
  rewrite !lor_shiftl_add by div_mod_lia.
  pow2_norm. reflexivity.
Qed.

Lemma Forall_firstn_of {A : Type} (P : A -> Prop) (n : nat) (l : list A) :
  Forall P l -> Forall P (firstn n l).
Proof.
  intros H. revert n. induction H as [| x l Hx Hl IH]; intros [| n]; simpl; auto.
Qed.

Lemma Forall_skipn_of {A : Type} (P : A -> Prop) (n : nat) (l : list A) :
  Forall P l -> Forall P (skipn n l).
Proof.
  intros H. revert n. induction H as [| x l Hx Hl IH]; intros [| n]; simpl; auto.
Qed.

Lemma Forall_repeat_of {A : Type} (P : A -> Prop) (n : nat) (x : A) :
  P x -> Forall P (repeat x n).
Proof.
  intros H. induction n; simpl; auto.
Qed.

Lemma Forall_resize {A : Type} (P : A -> Prop) (d : A) (n : nat) (l : list A) :
  P d -> Forall P l -> Forall P (resize d n l).
Proof.
  intros Hd Hl. unfold resize. apply Forall_app. split.
  - apply Forall_firstn_of. exact Hl.
  - apply Forall_repeat_of. exact Hd.
Qed.

Lemma length_resize {A : Type} (d : A) (n : nat) (l : list A) :
  length (resize d n l) = n.
Proof.
  unfold resize. rewrite length_app, length_firstn, repeat_length. lia.
Qed.

Lemma resize_same {A : Type} (d : A) (l : list A) : resize d (length l) l = l.
Proof.
  unfold resize. rewrite firstn_all, Nat.sub_diag. apply app_nil_r.
Qed.

Lemma nth_is_byte (data : list Z) (k : nat) : Forall is_byte data -> is_byte (nth k data 0).
Proof.
  intros Hdata. destruct (Nat.lt_ge_cases k (length data)) as [Hlt | Hge].
  - rewrite Forall_forall in Hdata. apply Hdata. apply nth_In. exact Hlt.
  - rewrite nth_overflow by exact Hge. unfold is_byte. lia.
Qed.

Lemma symbols_of_length (data : list Z) (n : nat) :
  length (symbols_of data n) = (8 * n)%nat.
Proof.
  revert data. induction n as [| n IH]; intros data; [reflexivity |].
  cbn [symbols_of]. rewrite length_app, IH. unfold block_values. simpl length. lia.
Qed.

Lemma symbols_of_range (data : list Z) (n : nat) :
  Forall is_byte data -> Forall is_value (symbols_of data n).
Proof.
  revert data. induction n as [| n IH]; intros data Hdata; [constructor |].
  cbn [symbols_of]. apply Forall_app. split.
  - apply block_values_range; apply nth_is_byte; exact Hdata.
  - apply IH. apply Forall_skipn_of. exact Hdata.
Qed.

Lemma Encode_loop_values (data : list Z) (i n : nat) (ret : list ascii) :
  Forall is_byte data ->
  Base32.Encode_loop data i n ret =
    ret ++ map Base32.Base32Chars_at (symbols_of (skipn (i * 5) data) n).
Proof.
  intros Hdata. revert i ret. induction n as [| n IH]; intros i ret.
  - simpl. symmetry. apply app_nil_r.
  - cbn [Base32.Encode_loop]. rewrite IH, Encode_block_values by exact Hdata.
    cbn [symbols_of]. rewrite !map_app, <- app_assoc. cbn [map app].
    rewrite skipn_skipn. reflexivity.
Qed.

Lemma Encode_data_bytes (input : list ascii) (len : nat) :
  Forall is_byte (Base32.Encode_data input len).
Proof.
  assert (H0 : is_byte 0) by (unfold is_byte; lia).
  assert (H : Forall is_byte (resize 0 len (map uchar input))).
  { apply Forall_resize; [exact H0 |].
    apply Forall_forall. intros x Hx. apply in_map_iff in Hx.
    destruct Hx as (c & <- & _). apply uchar_range. }
  unfold Base32.Encode_data. destruct (len mod 5 =? 0)%nat; [exact H |].
  apply Forall_resize; assumption.
Qed.

Lemma Encode_symbols_values (input : list ascii) (len : nat) :
  Base32.Encode_symbols input len =
    map Base32.Base32Chars_at
      (symbols_of (Base32.Encode_data input len) (Base32.Encode_blocks len)).
Proof.
  unfold Base32.Encode_symbols.
  rewrite Encode_loop_values by apply Encode_data_bytes. reflexivity.
Qed.

Lemma Encode_symbols_length (input : list ascii) (len : nat) :
  length (Base32.Encode_symbols input len) = (8 * Base32.Encode_blocks len)%nat.
Proof.
  rewrite Encode_symbols_values, length_map. apply symbols_of_length.
Qed.

Lemma Encode_symbols_alphabet (input : list ascii) (len : nat) :
  Forall (fun c => In c Base32.Base32Chars) (Base32.Encode_symbols input len).
Proof.
  rewrite Encode_symbols_values. apply Forall_forall. intros c Hc.
  apply in_map_iff in Hc. destruct Hc as (v & <- & Hv).
  apply at_in_alphabet.
  pose proof (symbols_of_range _ (Base32.Encode_blocks len) (Encode_data_bytes input len)) as H.
  rewrite Forall_forall in H. apply H. exact Hv.
Qed.

Lemma Encode_blocks_ceil (len : nat) : Base32.Encode_blocks len = ((len + 4) / 5)%nat.
Proof.
  unfold Base32.Encode_blocks.
  destruct (Nat.eqb_spec (len mod 5) 0) as [H | H]; nat_div_lia.
Qed.

Lemma padding_of_le (len : nat) :
  0 <= Base32.padding_of (len mod 5) <= 8 * Z.of_nat (Base32.Encode_blocks len).
Proof.
  unfold Base32.padding_of, Base32.Encode_blocks.
  destruct (len mod 5)%nat as [| [| [| [| [| r]]]]]; cbn [Nat.eqb]; lia.
Qed.

Lemma padding_of_table (r : nat) : Base32.padding_of r = Z.of_nat (padding_table r).
Proof.
  destruct r as [| [| [| [| [| r]]]]]; reflexivity.
Qed.

Lemma equals_not_in_alphabet : ~ In "="%char Base32.Base32Chars.
Proof.
  intros H. apply find_valid_iff in H. vm_compute in H. discriminate.
Qed.

Lemma Encode_shape (input : list ascii) (len : nat) :
  let n := effective_len input len in
  let p := padding_table (n mod 5) in
  let symbols := Base32.Encode_symbols input n in
  (p <= length symbols)%nat /\
  Base32.Encode input len = firstn (length symbols - p) symbols ++ repeat "="%char p.
Proof.
  intros n p symbols.
  pose proof (padding_of_le n) as Hp.
  pose proof (Encode_symbols_length input n) as HL.
  rewrite padding_of_table in Hp. fold p in Hp. fold symbols in HL.
  split; [lia |].
  unfold Base32.Encode. fold (effective_len input len). fold n. fold symbols.
  rewrite padding_of_table. fold p.
  unfold size_sub. destruct (Z.leb_spec (Z.of_nat p) (Z.of_nat (length symbols))); [| lia].
  replace (Z.to_nat (Z.of_nat (length symbols) - Z.of_nat p)) with (length symbols - p)%nat by lia.
  rewrite Nat2Z.id. reflexivity.
Qed.

(** C7.  For every input and length argument, the string that [Encode]
    returns has [8 * ceil(len / 5)] characters, a multiple of 8, where
    [len] is the length argument (the input's length when the argument
    is 0), and every character is one of the alphabet [A-Z2-7] or the
    padding character [=]. *)
Theorem Encode_length_multiple_of_8 (input : list ascii) (len : nat) :
  let n := effective_len input len in
  length (Base32.Encode input len) = (8 * ((n + 4) / 5))%nat /\
  (length (Base32.Encode input len) mod 8 = 0)%nat /\
  Forall (fun c => In c (lit "ABCDEFGHIJKLMNOPQRSTUVWXYZ234567") \/ c = "="%char)
         (Base32.Encode input len).
Proof.
  intros n.
  destruct (Encode_shape input len) as [Hp HE]. fold n in Hp, HE.
  pose proof (Encode_symbols_length input n) as HL.
  assert (Hlen : length (Base32.Encode input len) = (8 * ((n + 4) / 5))%nat).
  { rewrite HE, length_app, length_firstn, repeat_length, <- Encode_blocks_ceil. lia. }
  split; [exact Hlen |]. split.
  - rewrite Hlen, Nat.mul_comm. apply Nat.Div0.mod_mul.
  - rewrite HE. apply Forall_app. split.
    + apply Forall_firstn_of.
      eapply Forall_impl; [| apply Encode_symbols_alphabet].
      intros c Hc. left. exact Hc.
    + apply Forall_repeat_of. right. reflexivity.
Qed.

(** C4.  For every input, [Encode] cuts [p] trailing symbols off the
    output of the block loop and appends [p] padding characters [=],
    where [p] depends on [len mod 5] alone, by the table
    0 -> 0, 1 -> 6, 2 -> 3, 3 -> 3, 4 -> 1 (3 and not 4 at remainder 2);
    the symbols kept are alphabet symbols, so the result holds exactly
    [p] characters [=]. *)
Theorem Encode_padding_by_table (input : list ascii) (len : nat) :
  let n := effective_len input len in
  let p := padding_table (n mod 5) in
  let symbols := Base32.Encode_symbols input n in
  (p <= length symbols)%nat /\
  Base32.Encode input len = firstn (length symbols - p) symbols ++ repeat "="%char p /\
  Forall (fun c => In c Base32.Base32Chars) (firstn (length symbols - p) symbols) /\
  count_occ ascii_dec (Base32.Encode input len) "="%char = p.
Proof.
  intros n p symbols.
  destruct (Encode_shape input len) as [Hp HE]. fold n in Hp, HE. fold p in Hp, HE.
  fold symbols in Hp, HE.
  assert (Hkept : Forall (fun c => In c Base32.Base32Chars)
                         (firstn (length symbols - p) symbols)).
  { apply Forall_firstn_of. apply Encode_symbols_alphabet. }
  split; [exact Hp |]. split; [exact HE |]. split; [exact Hkept |].
  rewrite HE, count_occ_app, count_occ_repeat_eq by reflexivity.
  assert (H0 : count_occ ascii_dec (firstn (length symbols - p) symbols) "="%char = 0%nat).
  { apply count_occ_not_In. intros Hin.
    rewrite Forall_forall in Hkept. apply equals_not_in_alphabet.
    apply Hkept. exact Hin. }
  rewrite H0. reflexivity.
Qed.

(** ** Decode: the scanning loop as a regrouping of bits *)

Lemma push_buffer (b v : Z) :
  0 <= b -> is_value v ->
  u32 (Z.lor (u32 (Z.shiftl b 5)) v) = (b mod 2 ^ 27) * 32 + v.
Proof.
  unfold is_value. intros Hb Hv.
  assert (H1 : u32 (Z.shiftl b 5) = Z.shiftl (b mod 2 ^ 27) 5).
  { unfold u32. rewrite !Z.shiftl_mul_pow2 by lia. div_mod_lia. }
  rewrite H1, lor_shiftl_add by (pow2_norm; lia).
  unfold u32. div_mod_lia.
Qed.

Lemma regroup_arith (b v l : Z) :
  0 <= l < 8 -> 0 <= b < 2 ^ 32 -> is_value v ->
  let p' := (b mod 2 ^ l) * 32 + v in
  let b' := (b mod 2 ^ 27) * 32 + v in
  0 <= b' < 2 ^ 32 /\
  b' mod 2 ^ (l + 5) = p' /\
  (8 <= l + 5 ->
   b' mod 2 ^ (l + 5 - 8) = p' mod 2 ^ (l + 5 - 8) /\
   0 <= p' / 2 ^ (l + 5 - 8) < 256 /\
   (b' / 2 ^ (l + 5 - 8)) mod 2 ^ 8 = p' / 2 ^ (l + 5 - 8)).
Proof.
  intros Hl Hb Hv. unfold is_value in Hv. cbv zeta.
  assert (Hcases : l = 0 \/ l = 1 \/ l = 2 \/ l = 3 \/ l = 4 \/ l = 5 \/ l = 6 \/ l = 7) by lia.
  destruct Hcases as [-> | [-> | [-> | [-> | [-> | [-> | [-> | ->]]]]]]];
    closed_exponents;
    (split; [div_mod_lia | split; [div_mod_lia | intros H8; try lia; repeat split; div_mod_lia]]).
Qed.

Lemma Decode_push_ok (r : list ascii) (l c b v : Z) :
  0 <= l < 8 -> 0 <= b < 2 ^ 32 -> 0 <= c -> is_value v ->
  let st := Base32.mkDecodeState r l c b in
  let p' := (b mod 2 ^ l) * 32 + v in
  let b' := (b mod 2 ^ 27) * 32 + v in
  Base32.Decode_push st v =
    if 8 <=? l + 5 then
      r' <- str_set r c (to_char (p' / 2 ^ (l + 5 - 8))) ;;
      Ok (Base32.mkDecodeState r' (l + 5 - 8) (c + 1) b')
    else Ok (Base32.mkDecodeState r (l + 5) c b').
Proof.
  intros Hl Hb Hc Hv st p' b'.
  destruct (regroup_arith b v l Hl Hb Hv) as (Hb' & Hlow & Hhigh).
  fold p' in Hlow, Hhigh. fold b' in Hb', Hlow, Hhigh. subst st.
  unfold Base32.Decode_push. cbn [Base32.left Base32.buffer Base32.count Base32.ret].
  rewrite push_buffer by (assumption || lia). fold b'.
  assert (H64 : u64 (l + 5) = l + 5) by (unfold u64; apply Z.mod_small; lia).
  rewrite H64.
  destruct (Z.leb_spec 8 (l + 5)) as [H8 | H8]; [| reflexivity].
  destruct (Hhigh H8) as (_ & _ & Hbyte).
  assert (H64' : u64 (l + 5 - 8) = l + 5 - 8) by (unfold u64; apply Z.mod_small; lia).
  rewrite H64'. unfold shr32.
  destruct (Z.ltb_spec (l + 5 - 8) 32) as [_ | Hbad]; [| lia].
  cbn [bind]. rewrite Z.shiftr_div_pow2 by lia.
  rewrite (land_mask _ 8 255) by (reflexivity || lia).
  rewrite Hbyte. reflexivity.
Qed.

Lemma Decode_loop_push_all (data : list ascii) (st : Base32.DecodeState) :
  Base32.Decode_loop st data = push_all st (valid_values data).
Proof.
  revert st. induction data as [| c data IH]; intros st; [reflexivity |].
  cbn [Base32.Decode_loop]. unfold valid_values. cbn [map filter].
  fold (valid_values data). unfold Base32.Decode_step.
  destruct (Z.leb_spec 32 (Base32.Base32Chars_find c)) as [Hge | Hlt].
  - destruct (Z.ltb_spec (Base32.Base32Chars_find c) 32) as [Hlt | _]; [lia |].
    cbn [bind]. apply IH.
  - destruct (Z.ltb_spec (Base32.Base32Chars_find c) 32) as [_ | Hge]; [| lia].
    cbn [push_all]. destruct (Base32.Decode_push st (Base32.Base32Chars_find c)); cbn [bind].
    + apply IH.
    + reflexivity.
Qed.

Lemma valid_values_range (data : list ascii) : Forall is_value (valid_values data).
Proof.
  unfold valid_values. apply Forall_forall. intros v Hv.
  apply filter_In in Hv. destruct Hv as [Hin Hlt].
  apply in_map_iff in Hin. destruct Hin as (c & <- & _).
  pose proof (find_nonneg c). unfold is_value. lia.
Qed.

Lemma str_set_ok (r : list ascii) (c : Z) (x : ascii) :
  0 <= c < Z.of_nat (length r) ->
  str_set r c x = Ok (firstn (Z.to_nat c) r ++ x :: skipn (S (Z.to_nat c)) r).
Proof.
  intros H. unfold str_set.
  destruct (Z.leb_spec 0 c); [| lia].
  destruct (Z.ltb_spec c (Z.of_nat (length r))); [| lia]. reflexivity.
Qed.

Lemma str_set_bad (r : list ascii) (c : Z) (x : ascii) :
  Z.of_nat (length r) <= c ->
  str_set r c x = Undefined (OutOfRange c (Z.of_nat (length r))).
Proof.
  intros H. unfold str_set.
  destruct (Z.ltb_spec c (Z.of_nat (length r))); [lia |].
  rewrite andb_false_r. reflexivity.
Qed.

Lemma length_set {A : Type} (n : nat) (r : list A) (x : A) :
  (n < length r)%nat -> length (firstn n r ++ x :: skipn (S n) r) = length r.
Proof.
  intros H. rewrite length_app, length_firstn. cbn [length]. rewrite length_skipn. lia.
Qed.

Lemma firstn_set {A : Type} (n : nat) (r : list A) (x : A) :
  (n < length r)%nat ->
  firstn (S n) (firstn n r ++ x :: skipn (S n) r) = firstn n r ++ [x].
Proof.
  intros H. rewrite firstn_app, length_firstn.
  replace (S n - Nat.min n (length r))%nat with 1%nat by lia.
  rewrite firstn_firstn. replace (Nat.min (S n) n) with n by lia.
  reflexivity.
Qed.

(** The loop gives out the bytes of [regroup] as long as the string
    [ret] has room for them, and writes outside of it otherwise. *)
Lemma push_all_regroup (vals : list Z) (r : list ascii) (l c b : Z) :
  0 <= l < 8 -> 0 <= b < 2 ^ 32 -> 0 <= c <= Z.of_nat (length r) ->
  Forall is_value vals ->
  let st := Base32.mkDecodeState r l c b in
  let out := fst (regroup (b mod 2 ^ l) l vals) in
  let p' := fst (snd (regroup (b mod 2 ^ l) l vals)) in
  let l' := snd (snd (regroup (b mod 2 ^ l) l vals)) in
  (c + Z.of_nat (length out) <= Z.of_nat (length r) ->
   exists st', push_all st vals = Ok st' /\ decode_inv st' /\
     Base32.left st' = l' /\ Base32.buffer st' mod 2 ^ l' = p' /\
     Base32.count st' = c + Z.of_nat (length out) /\
     length (Base32.ret st') = length r /\
     firstn (Z.to_nat (Base32.count st')) (Base32.ret st') =
       firstn (Z.to_nat c) r ++ map to_char out) /\
  (Z.of_nat (length r) < c + Z.of_nat (length out) ->
   exists i n, push_all st vals = Undefined (OutOfRange i n)).
Proof.
  intros Hl Hb Hc Hvals. revert r l c b Hl Hb Hc.
  induction Hvals as [| v vals Hv Hvals IH]; intros r l c b Hl Hb Hc; cbv zeta.
  - cbn [regroup fst snd push_all length map]. split.
    + intros Hroom. eexists. split; [reflexivity |].
      unfold decode_inv. cbn [Base32.left Base32.buffer Base32.count Base32.ret].
      rewrite app_nil_r, Z.add_0_r. repeat split; try lia.
    + intros Hbad. cbn in Hbad. lia.
  - cbn [push_all]. rewrite Decode_push_ok by (assumption || lia).
    destruct (regroup_arith b v l Hl Hb Hv) as (Hb' & Hlow & Hhigh).
    cbn [regroup]. destruct (Z.leb_spec 8 (l + 5)) as [H8 | H8].
    + destruct (Hhigh H8) as (Hmod & Hbyte & _).
      set (p1 := b mod 2 ^ l * 32 + v) in *.
      set (b1 := b mod 2 ^ 27 * 32 + v) in *.
      destruct (Z.ltb_spec c (Z.of_nat (length r))) as [Hin | Hout].
      * rewrite str_set_ok by lia. cbn [bind].
        set (r1 := firstn (Z.to_nat c) r ++ to_char (p1 / 2 ^ (l + 5 - 8))
                     :: skipn (S (Z.to_nat c)) r).
        assert (Hlen1 : length r1 = length r) by (apply length_set; lia).
        specialize (IH r1 (l + 5 - 8) (c + 1) b1 ltac:(lia) Hb' ltac:(lia)).
        cbv zeta in IH. rewrite Hmod, Hlen1 in IH.
        destruct (regroup (p1 mod 2 ^ (l + 5 - 8)) (l + 5 - 8) vals) as [out fin].
        cbn [fst snd length] in *. destruct IH as [IHok IHbad]. split.
        -- intros Hroom. destruct (IHok ltac:(clear - Hroom; lia)) as (st' & Hrun & Hinv & Hl' & Hp' & Hc' & Hlen' & Hpre).
           exists st'. split; [exact Hrun |]. split; [exact Hinv |].
           split; [exact Hl' |]. split; [exact Hp' |].
           split; [clear - Hc'; lia |].
           split; [exact Hlen' |].
           rewrite Hpre. unfold r1. cbn [map].
           replace (Z.to_nat (c + 1)) with (S (Z.to_nat c)) by (clear - Hc; lia).
           rewrite firstn_set by (clear - Hc Hin; lia).
           rewrite <- app_assoc. reflexivity.
        -- intros Hbad. apply IHbad. clear - Hbad. lia.
      * rewrite str_set_bad by lia. cbn [bind].
        destruct (regroup (p1 mod 2 ^ (l + 5 - 8)) (l + 5 - 8) vals) as [out fin].
        cbn [fst snd length]. split.
        -- intros Hroom. lia.
        -- intros _. eauto.
    + cbn [bind].
      specialize (IH r (l + 5) c (b mod 2 ^ 27 * 32 + v) ltac:(lia) Hb' Hc).
      cbv zeta in IH. rewrite Hlow in IH. exact IH.
Qed.

(** ** Decode after Encode on whole blocks *)

Lemma regroup_cons_lt (p l v : Z) (vs : list Z) :
  l + 5 < 8 -> regroup p l (v :: vs) = regroup (p * 32 + v) (l + 5) vs.
Proof.
  intros H. cbn [regroup]. destruct (Z.leb_spec 8 (l + 5)); [lia | reflexivity].
Qed.

Lemma regroup_cons_ge (p l v : Z) (vs : list Z) :
  8 <= l + 5 ->
  regroup p l (v :: vs) =
    (let '(out, fin) := regroup ((p * 32 + v) mod 2 ^ (l + 5 - 8)) (l + 5 - 8) vs in
     ((p * 32 + v) / 2 ^ (l + 5 - 8) :: out, fin)).
Proof.
  intros H. cbn [regroup]. destruct (Z.leb_spec 8 (l + 5)); [reflexivity | lia].
Qed.

Lemma regroup_block (d0 d1 d2 d3 d4 : Z) (vs : list Z) :
  is_byte d0 -> is_byte d1 -> is_byte d2 -> is_byte d3 -> is_byte d4 ->
  regroup 0 0 (block_values d0 d1 d2 d3 d4 ++ vs) =
    (d0 :: d1 :: d2 :: d3 :: d4 :: fst (regroup 0 0 vs), snd (regroup 0 0 vs)).
Proof.
  unfold is_byte. intros H0 H1 H2 H3 H4.
  unfold block_values. cbn [app].
  rewrite regroup_cons_lt by lia. change (0 + 5) with 5.
  rewrite regroup_cons_ge by lia. change (5 + 5 - 8) with 2.
  rewrite regroup_cons_lt by lia. change (2 + 5) with 7.
  rewrite regroup_cons_ge by lia. change (7 + 5 - 8) with 4.
  rewrite regroup_cons_ge by lia. change (4 + 5 - 8) with 1.
  rewrite regroup_cons_lt by lia. change (1 + 5) with 6.
  rewrite regroup_cons_ge by lia. change (6 + 5 - 8) with 3.
  rewrite regroup_cons_ge by lia. change (3 + 5 - 8) with 0.
  change (2 ^ 0) with 1. rewrite Z.mod_1_r.
  destruct (regroup 0 0 vs) as [out fin]. cbn [fst snd].
  f_equal.
  f_equal; [div_mod_lia |]. f_equal; [div_mod_lia |]. f_equal; [div_mod_lia |].
  f_equal; [div_mod_lia |]. f_equal. div_mod_lia.
Qed.

Lemma valid_values_at (vals : list Z) :
  Forall is_value vals -> valid_values (map Base32.Base32Chars_at vals) = vals.
Proof.
  intros H. induction H as [| v vals Hv Hvals IH]; [reflexivity |].
  unfold valid_values in *. cbn [map filter]. rewrite find_at by exact Hv.
  unfold is_value in Hv. destruct (Z.ltb_spec v 32); [| lia].
  rewrite IH. reflexivity.
Qed.

Lemma regroup_symbols (k : nat) (data : list Z) :
  length data = (5 * k)%nat -> Forall is_byte data ->
  regroup 0 0 (symbols_of data k) = (data, (0, 0)).
Proof.
  revert data. induction k as [| k IH]; intros data Hlen Hdata.
  - destruct data; [reflexivity | discriminate].
  - destruct data as [| d0 [| d1 [| d2 [| d3 [| d4 data]]]]];
      try (cbn [length] in Hlen; lia).
    cbn [symbols_of nth skipn].
    apply Forall_cons_iff in Hdata. destruct Hdata as [H0 Hdata].
    apply Forall_cons_iff in Hdata. destruct Hdata as [H1 Hdata].
    apply Forall_cons_iff in Hdata. destruct Hdata as [H2 Hdata].
    apply Forall_cons_iff in Hdata. destruct Hdata as [H3 Hdata].
    apply Forall_cons_iff in Hdata. destruct Hdata as [H4 Hdata].
    rewrite regroup_block by assumption.
    rewrite IH; [reflexivity | cbn [length] in Hlen; lia | exact Hdata].
Qed.

(** [Decode] when the valid characters fill whole bytes. *)
Lemma Decode_aligned (data : list ascii) :
  let out := fst (regroup 0 0 (valid_values data)) in
  snd (snd (regroup 0 0 (valid_values data))) = 0 ->
  (length out <= length data * 5 / 8)%nat ->
  Base32.Decode data = Ok (map to_char out).
Proof.
  intros out Hleft Hroom. unfold Base32.Decode.
  rewrite Decode_loop_push_all.
  pose proof (push_all_regroup (valid_values data)
                (resize zero (length data * 5 / 8) []) 0 0 0) as H.
  rewrite length_resize in H.
  specialize (H ltac:(lia) ltac:(lia) ltac:(lia) (valid_values_range data)).
  cbv zeta in H. change (0 mod 2 ^ 0) with 0 in H. fold out in H.
  destruct H as [Hok _].
  destruct (Hok ltac:(lia)) as (st' & Hrun & Hinv & Hl' & _ & Hc' & Hlen' & Hpre).
  unfold Base32.Decode_init. rewrite Hrun. cbn [bind].
  unfold Base32.Decode_finish. rewrite Hl', Hleft. cbn [Z.eqb].
  unfold resize. rewrite Hpre. cbn [Z.to_nat firstn app].
  replace (Z.to_nat (Base32.count st') - length (Base32.ret st'))%nat with 0%nat by lia.
  apply f_equal. apply app_nil_r.
Qed.

Lemma Encode_aligned (bytes : list ascii) :
  (length bytes mod 5 = 0)%nat ->
  Base32.Encode bytes 0 =
    map Base32.Base32Chars_at (symbols_of (map uchar bytes) (length bytes / 5)).
Proof.
  intros Hmod. destruct (Encode_shape bytes 0) as [_ HE]. rewrite HE.
  unfold effective_len. cbn [Nat.eqb]. rewrite Hmod. cbn [padding_table repeat].
  rewrite Nat.sub_0_r, firstn_all, app_nil_r, Encode_symbols_values.
  unfold Base32.Encode_data, Base32.Encode_blocks. rewrite Hmod. cbn [Nat.eqb].
  rewrite <- (length_map uchar bytes) at 1. rewrite resize_same. reflexivity.
Qed.

Lemma Encode_explicit_length (bytes : list ascii) :
  Base32.Encode bytes (length bytes) = Base32.Encode bytes 0.
Proof.
  unfold Base32.Encode. cbn [Nat.eqb].
  destruct (Nat.eqb_spec (length bytes) 0) as [H | H]; [rewrite H |]; reflexivity.
Qed.

(** C3.  For every byte sequence whose length is an exact multiple of 5,
    [Decode (Encode bytes)] returns exactly the original bytes, with the
    length argument of [Encode] left out or equal to the length. *)
Theorem Decode_Encode_roundtrip (bytes : list ascii) :
  (length bytes mod 5 = 0)%nat ->
  Base32.Decode (Base32.Encode bytes 0) = Ok bytes /\
  Base32.Decode (Base32.Encode bytes (length bytes)) = Ok bytes.
Proof.
  intros Hmod. rewrite Encode_explicit_length.
  cut (Base32.Decode (Base32.Encode bytes 0) = Ok bytes); [intros H; split; exact H |].
  assert (Hk : length (map uchar bytes) = (5 * (length bytes / 5))%nat).
  { rewrite length_map. nat_div_lia. }
  assert (Hbytes : Forall is_byte (map uchar bytes)).
  { apply Forall_forall. intros x Hx. apply in_map_iff in Hx.
    destruct Hx as (c & <- & _). apply uchar_range. }
  assert (Hvals : valid_values (Base32.Encode bytes 0) =
                  symbols_of (map uchar bytes) (length bytes / 5)).
  { rewrite Encode_aligned by exact Hmod. apply valid_values_at.
    apply symbols_of_range. exact Hbytes. }
  pose proof (Decode_aligned (Base32.Encode bytes 0)) as H. cbv zeta in H.
  rewrite Hvals, (regroup_symbols _ _ Hk Hbytes) in H. cbn [fst snd] in H.
  rewrite H.
  - rewrite map_map. f_equal. rewrite <- (map_id bytes) at 2.
    apply map_ext. intros c. apply to_char_uchar.
  - reflexivity.
  - rewrite Encode_aligned by exact Hmod.
    rewrite !length_map, symbols_of_length. nat_div_lia.
Qed.

Lemma Decode_Encode_roundtrip_witness :
  (length (lit "0123456789") mod 5 = 0)%nat /\
  Base32.Decode (Base32.Encode (lit "0123456789") 0) = Ok (lit "0123456789").
Proof.
  split; [reflexivity |].
  apply (Decode_Encode_roundtrip (lit "0123456789")). reflexivity.
Defined.

(** ** Generate: the challenge *)

Lemma make_challenge_be8 (n : Z) : TOTP.make_challenge n = be8 n.
Proof.
  unfold TOTP.make_challenge, be8.
  cbn [TOTP.challenge_loop repeat TOTP.vec_set length Nat.ltb Nat.leb firstn skipn app].
  rewrite !Z.shiftr_shiftr by lia. rewrite !Z.shiftr_div_pow2 by lia.
  reflexivity.
Qed.

Lemma big_endian_be8 (n : Z) : 0 <= n < 2 ^ 64 -> big_endian (be8 n) = n.
Proof.
  intros H. unfold big_endian, be8. cbn [fold_left]. div_mod_lia.
Qed.

Lemma be8_bytes (n : Z) : Forall is_byte (be8 n).
Proof.
  unfold be8, is_byte. repeat constructor; div_mod_lia.
Qed.

Lemma u64_range (z : Z) : 0 <= u64 z < 2 ^ 64.
Proof.
  unfold u64. apply Z.mod_pos_bound. lia.
Qed.

(** C8.  For every counter, [Generate] with a provider serializes the
    64-bit counter into exactly 8 bytes, most significant byte first, and
    takes the digest of [hmac] with the decoded secret as the key and
    these 8 bytes as the message. *)
Theorem Generate_challenge_big_endian
  (hp : TOTP.HashProvider) (w : Z) (secret : list ascii) (time : Z) :
  let counter := u64 time in
  TOTP.make_challenge counter = be8 counter /\
  length (be8 counter) = 8%nat /\
  Forall is_byte (be8 counter) /\
  big_endian (be8 counter) = counter /\
  TOTP.Generate (TOTP.mkTOTP (Some hp) w) secret time =
    (key <- Base32.Decode secret ;;
     TOTP.Generate_code hp (TOTP.hmac hp key (map to_char (be8 counter)))).
Proof.
  intros counter.
  split; [apply make_challenge_be8 |]. split; [reflexivity |].
  split; [apply be8_bytes |]. split; [apply big_endian_be8; apply u64_range |].
  unfold TOTP.Generate. cbn [TOTP.Hash]. fold counter.
  rewrite make_challenge_be8. reflexivity.
Qed.

(** ** Generate: from the digest to the code *)

Lemma uchar_digit_char (d : Z) : 0 <= d <= 9 -> uchar (TOTP.digit_char d) = 48 + d.
Proof.
  intros H. unfold uchar, TOTP.digit_char.
  rewrite N_ascii_embedding by lia. lia.
Qed.

Lemma six_digits_length (v : Z) : length (six_digits v) = 6%nat.
Proof. reflexivity. Qed.

Lemma six_digits_are_digits (v : Z) : Forall is_digit (six_digits v).
Proof.
  unfold six_digits, is_digit. cbn [map].
  repeat constructor; rewrite uchar_digit_char; div_mod_lia.
Qed.

Lemma six_digits_value (v : Z) : 0 <= v < 1000000 -> decimal_value (six_digits v) = v.
Proof.
  intros H. unfold decimal_value, six_digits. cbn [map fold_left].
  rewrite !uchar_digit_char by div_mod_lia.
  change (10 ^ 5) with 100000. change (10 ^ 4) with 10000. change (10 ^ 3) with 1000.
  change (10 ^ 2) with 100. change (10 ^ 1) with 10. change (10 ^ 0) with 1.
  Z.div_mod_to_equations. lia.
Qed.

Lemma dec_digits_step (fuel : nat) (n : Z) :
  TOTP.dec_digits (S fuel) n =
    (if n <? 10 then [] else TOTP.dec_digits fuel (n / 10)) ++ [TOTP.digit_char (n mod 10)].
Proof. reflexivity. Qed.

(** The numeral of a number below 1000000, filled with zeros to 6 characters. *)
Lemma ConvToStr_padded (v : Z) :
  0 <= v < 1000000 ->
  let ret := TOTP.ConvToStr v in
  TOTP.str_insert_front ret (u64 (6 - Z.of_nat (length ret))) "0"%char = Ok (six_digits v).
Proof.
  intros Hv. cbv zeta. unfold TOTP.ConvToStr, six_digits. cbn [map].
  change (10 ^ 5) with 100000. change (10 ^ 4) with 10000. change (10 ^ 3) with 1000.
  change (10 ^ 2) with 100. change (10 ^ 1) with 10. change (10 ^ 0) with 1.
  rewrite Z.div_1_r.
  assert (H1 : v / 10 / 10 = v / 100) by (Z.div_mod_to_equations; lia).
  assert (H2 : v / 100 / 10 = v / 1000) by (Z.div_mod_to_equations; lia).
  assert (H3 : v / 1000 / 10 = v / 10000) by (Z.div_mod_to_equations; lia).
  assert (H4 : v / 10000 / 10 = v / 100000) by (Z.div_mod_to_equations; lia).
  rewrite dec_digits_step.
  destruct (Z.ltb_spec v 10) as [L0 | L0].
  { replace (v / 100000 mod 10) with 0 by (Z.div_mod_to_equations; lia).
    replace (v / 10000 mod 10) with 0 by (Z.div_mod_to_equations; lia).
    replace (v / 1000 mod 10) with 0 by (Z.div_mod_to_equations; lia).
    replace (v / 100 mod 10) with 0 by (Z.div_mod_to_equations; lia).
    replace (v / 10 mod 10) with 0 by (Z.div_mod_to_equations; lia).
    reflexivity. }
  rewrite dec_digits_step.
  destruct (Z.ltb_spec (v / 10) 10) as [L1 | L1].
  { replace (v / 100000 mod 10) with 0 by (Z.div_mod_to_equations; lia).
    replace (v / 10000 mod 10) with 0 by (Z.div_mod_to_equations; lia).
    replace (v / 1000 mod 10) with 0 by (Z.div_mod_to_equations; lia).
    replace (v / 100 mod 10) with 0 by (Z.div_mod_to_equations; lia).
    reflexivity. }
  rewrite dec_digits_step, H1.
  destruct (Z.ltb_spec (v / 100) 10) as [L2 | L2].
  { replace (v / 100000 mod 10) with 0 by (Z.div_mod_to_equations; lia).
    replace (v / 10000 mod 10) with 0 by (Z.div_mod_to_equations; lia).
    replace (v / 1000 mod 10) with 0 by (Z.div_mod_to_equations; lia).
    reflexivity. }
  rewrite dec_digits_step, H2.
  destruct (Z.ltb_spec (v / 1000) 10) as [L3 | L3].
  { replace (v / 100000 mod 10) with 0 by (Z.div_mod_to_equations; lia).
    replace (v / 10000 mod 10) with 0 by (Z.div_mod_to_equations; lia).
    reflexivity. }
  rewrite dec_digits_step, H3.
  destruct (Z.ltb_spec (v / 10000) 10) as [L4 | L4].
  { replace (v / 100000 mod 10) with 0 by (Z.div_mod_to_equations; lia).
    reflexivity. }
  rewrite dec_digits_step, H4.
  destruct (Z.ltb_spec (v / 100000) 10) as [L5 | L5].
  { reflexivity. }
  exfalso. Z.div_mod_to_equations. lia.
Qed.

Lemma str_get_ok (s : list ascii) (i : Z) :
  0 <= i <= Z.of_nat (length s) -> str_get s i = Ok (nth (Z.to_nat i) s zero).
Proof.
  intros H. unfold str_get.
  destruct (Z.leb_spec 0 i); [| lia].
  destruct (Z.leb_spec i (Z.of_nat (length s))); [| lia]. reflexivity.
Qed.

Lemma last_nth {A : Type} (l : list A) (d : A) :
  last l d = nth (length l - 1) l d.
Proof.
  induction l as [| x l IH]; [reflexivity |].
  destruct l as [| y l]; [reflexivity |].
  change (last (x :: y :: l) d) with (last (y :: l) d). rewrite IH.
  cbn [length]. replace (S (S (length l)) - 1)%nat with (S (S (length l) - 1)) by lia.
  reflexivity.
Qed.

Lemma firstn4_skipn {A : Type} (n : nat) (l : list A) (d : A) :
  (n + 4 <= length l)%nat ->
  firstn 4 (skipn n l) = [nth n l d; nth (n + 1) l d; nth (n + 2) l d; nth (n + 3) l d].
Proof.
  revert l. induction n as [| n IH]; intros l H.
  - destruct l as [| a [| b [| c [| e l]]]]; cbn [length] in H; try lia. reflexivity.
  - destruct l as [| a l]; cbn [length] in H; [lia |].
    cbn [skipn Nat.add nth]. apply IH. lia.
Qed.

Lemma shift_in_byte (a b : Z) :
  0 <= a < 2 ^ 24 -> is_byte b -> u32 (Z.lor (u32 (Z.shiftl a 8)) b) = a * 256 + b.
Proof.
  unfold is_byte. intros Ha Hb.
  assert (H1 : u32 (Z.shiftl a 8) = Z.shiftl a 8).
  { unfold u32. rewrite Z.shiftl_mul_pow2 by lia. apply Z.mod_small. div_mod_lia. }
  rewrite H1, lor_shiftl_add by (pow2_norm; lia).
  unfold u32. apply Z.mod_small. div_mod_lia.
Qed.

Lemma truncate_loop_word (hash : list ascii) (offset : Z) :
  0 <= offset -> offset + 4 <= Z.of_nat (length hash) ->
  TOTP.truncate_loop hash offset 0 4 0 =
    Ok (big_endian (firstn 4 (skipn (Z.to_nat offset) (map uchar hash)))).
Proof.
  intros H0 Hlen.
  rewrite (firstn4_skipn _ _ 0) by (rewrite length_map; lia).
  change 0 with (uchar zero) at 3 4 5 6. rewrite !map_nth.
  cbn [TOTP.truncate_loop].
  rewrite !str_get_ok by lia. cbn [bind].
  replace (Z.to_nat (offset + 0)) with (Z.to_nat offset) by lia.
  replace (Z.to_nat (offset + (0 + 1))) with (Z.to_nat offset + 1)%nat by lia.
  replace (Z.to_nat (offset + (0 + 1 + 1))) with (Z.to_nat offset + 2)%nat by lia.
  replace (Z.to_nat (offset + (0 + 1 + 1 + 1))) with (Z.to_nat offset + 3)%nat by lia.
  pose proof (uchar_range (nth (Z.to_nat offset) hash zero)) as B0.
  pose proof (uchar_range (nth (Z.to_nat offset + 1) hash zero)) as B1.
  pose proof (uchar_range (nth (Z.to_nat offset + 2) hash zero)) as B2.
  pose proof (uchar_range (nth (Z.to_nat offset + 3) hash zero)) as B3.
  generalize dependent (uchar (nth (Z.to_nat offset) hash zero)). intros b0 B0.
  generalize dependent (uchar (nth (Z.to_nat offset + 1) hash zero)). intros b1 B1.
  generalize dependent (uchar (nth (Z.to_nat offset + 2) hash zero)). intros b2 B2.
  generalize dependent (uchar (nth (Z.to_nat offset + 3) hash zero)). intros b3 B3.
  rewrite (shift_in_byte 0 b0) by (unfold is_byte; lia).
  rewrite (shift_in_byte _ b1) by (unfold is_byte; lia).
  rewrite (shift_in_byte _ b2) by (unfold is_byte; lia).
  rewrite (shift_in_byte _ b3) by (unfold is_byte; lia).
  reflexivity.
Qed.

(** Lines 143-156 on a digest of [out_size] bytes. *)
Lemma Generate_code_truncation (hp : TOTP.HashProvider) (hash : list ascii) :
  19 <= TOTP.out_size hp < 2 ^ 32 ->
  Z.of_nat (length hash) = TOTP.out_size hp ->
  TOTP.Generate_code hp hash = Ok (six_digits (dynamic_truncation (map uchar hash))) /\
  0 <= dynamic_truncation (map uchar hash) <= 999999.
Proof.
  intros Hsize Hlen.
  assert (Hlast : last (map uchar hash) 0 =
                  uchar (nth (Z.to_nat (u32 (TOTP.out_size hp - 1))) hash zero)).
  { rewrite last_nth, length_map. change 0 with (uchar zero). rewrite map_nth.
    unfold u32. rewrite Z.mod_small by lia.
    replace (Z.to_nat (TOTP.out_size hp - 1)) with (length hash - 1)%nat by lia.
    reflexivity. }
  assert (Hoff : 0 <= Z.land (last (map uchar hash) 0) 15 < 16).
  { rewrite (land_mask _ 4 15) by (reflexivity || lia). div_mod_lia. }
  assert (Hrange : 0 <= dynamic_truncation (map uchar hash) <= 999999).
  { unfold dynamic_truncation. Z.div_mod_to_equations. lia. }
  split; [| exact Hrange].
  unfold TOTP.Generate_code.
  rewrite str_get_ok by (unfold u32; rewrite Z.mod_small by lia; lia).
  cbn [bind]. rewrite <- Hlast.
  rewrite truncate_loop_word by lia. cbn [bind].
  apply ConvToStr_padded. fold (dynamic_truncation (map uchar hash)). lia.
Qed.

(** C1.  With a provider configured whose digests have [out_size] bytes,
    at least 19, and for every counter and every secret that [Decode]
    decodes, [Generate] computes the code of RFC 4226 from the digest taken
    with the decoded secret: [offset] is the low 4 bits of the last digest
    byte, the 4 bytes from [offset] are read as a big-endian 32-bit number,
    masked with [0x7FFFFFFF], reduced modulo 1000000 and written as exactly
    6 decimal digits with leading zeros, which denote a number in
    [0, 999999]. *)
Theorem Generate_dynamic_truncation
  (hp : TOTP.HashProvider) (w : Z) (secret key : list ascii) (time : Z) :
  digest_sized hp ->
  Base32.Decode secret = Ok key ->
  let digest :=
    map uchar (TOTP.hmac hp key (map to_char (TOTP.make_challenge (u64 time)))) in
  let code := six_digits (dynamic_truncation digest) in
  TOTP.Generate (TOTP.mkTOTP (Some hp) w) secret time = Ok code /\
  length code = 6%nat /\
  Forall is_digit code /\
  decimal_value code = dynamic_truncation digest /\
  0 <= decimal_value code <= 999999.
Proof.
  intros [Hsize Hlen] Hkey digest code.
  destruct (Generate_code_truncation hp
              (TOTP.hmac hp key (map to_char (TOTP.make_challenge (u64 time))))
              Hsize (Hlen _ _)) as [Hcode Hrange].
  fold digest in Hcode, Hrange. fold code in Hcode.
  assert (Hval : decimal_value code = dynamic_truncation digest).
  { apply six_digits_value. lia. }
  split.
  - unfold TOTP.Generate. cbn [TOTP.Hash]. rewrite Hkey. cbn [bind]. exact Hcode.
  - split; [apply six_digits_length |]. split; [apply six_digits_are_digits |].
    split; [exact Hval |]. rewrite Hval. exact Hrange.
Qed.

Example six_digits_42 : six_digits 42 = lit "000042".
Proof. reflexivity. Qed.

Example Generate_code_pads_42 :
  TOTP.str_insert_front (TOTP.ConvToStr 42)
    (u64 (6 - Z.of_nat (length (TOTP.ConvToStr 42)))) "0"%char = Ok (lit "000042").
Proof. reflexivity. Qed.

Lemma toy_digest_sized : digest_sized toy_provider.
Proof.
  split; [vm_compute; split; congruence |].
  intros key msg. unfold toy_provider. cbn [TOTP.hmac TOTP.out_size].
  rewrite length_resize. reflexivity.
Qed.

Lemma Generate_dynamic_truncation_witness :
  digest_sized toy_provider /\
  TOTP.Generate (toy 1) (lit "JBSWY3DP") 5 = Ok (lit "886080").
Proof.
  assert (Hsized : digest_sized toy_provider).
  { split; [vm_compute; split; congruence |].
    intros key msg. unfold toy_provider. cbn [TOTP.hmac TOTP.out_size].
    rewrite length_resize. reflexivity. }
  split; [exact Hsized |].
  exact (proj1 (Generate_dynamic_truncation toy_provider 1 (lit "JBSWY3DP") (lit "Hello") 5
                  Hsized eq_refl)).
Defined.

(** C1 does not hold for every configured provider and every secret.  A
    provider whose digests have 16 bytes, the last one [0xFF], makes
    [Generate] read [hash[17]], outside the digest; and on the secret
    [IE======], whose 2 symbols leave 2 bits in [Decode], [Generate] stops
    in the shift by [left - 3] of [Decode].  Neither call returns 6
    digits. *)
Lemma Generate_dynamic_truncation_counterexample :
  TOTP.out_size short_provider = 16 /\
  TOTP.Generate (TOTP.mkTOTP (Some short_provider) 5) (lit "JBSWY3DP") 0 =
    Undefined (OutOfRange 17 16) /\
  TOTP.Generate (toy 5) (lit "IE======") 0 = Undefined (ShiftTooWide (2 ^ 64 - 1)).
Proof.
  split; [reflexivity |]. split; vm_compute; reflexivity.
Qed.

(** ** Validate *)

Lemma str_eqb_eq (a b : list ascii) : TOTP.str_eqb a b = true <-> a = b.
Proof.
  revert b. induction a as [| x a IH]; intros [| y b]; cbn [TOTP.str_eqb];
    try (split; [discriminate | discriminate]); [split; reflexivity |].
  rewrite andb_true_iff, Ascii.eqb_eq, IH. split.
  - intros [-> ->]. reflexivity.
  - intros H. injection H as -> ->. split; reflexivity.
Qed.

Lemma Generate_defined (hp : TOTP.HashProvider) (w : Z) (secret key : list ascii) :
  digest_sized hp -> Base32.Decode secret = Ok key ->
  forall time, exists g, TOTP.Generate (TOTP.mkTOTP (Some hp) w) secret time = Ok g.
Proof.
  intros [Hsize Hlen] Hkey time. unfold TOTP.Generate. cbn [TOTP.Hash].
  rewrite Hkey. cbn [bind].
  destruct (Generate_code_truncation hp
              (TOTP.hmac hp key (map to_char (TOTP.make_challenge (u64 time))))
              Hsize (Hlen _ _)) as [Hcode _].
  eexists. exact Hcode.
Qed.

Lemma Generate_unloaded (w : Z) (secret : list ascii) (time : Z) :
  TOTP.Generate (unloaded w) secret time = Ok [].
Proof. reflexivity. Qed.

Lemma Validate_loop_iff (self : TOTP.t) (secret code : list ascii) (n : nat) (time : Z) :
  (forall t, exists g, TOTP.Generate self secret t = Ok g) ->
  exists b, TOTP.Validate_loop self secret code time n = Ok b /\
    (b = true <->
     exists c, time <= c < time + Z.of_nat n /\ TOTP.Generate self secret c = Ok code).
Proof.
  intros Hdef. revert time. induction n as [| n IH]; intros time.
  - exists false. split; [reflexivity |]. split; [discriminate |].
    intros (c & Hc & _). lia.
  - cbn [TOTP.Validate_loop]. destruct (Hdef time) as [g Hg]. rewrite Hg. cbn [bind].
    destruct (TOTP.str_eqb g code) eqn:Heq.
    + apply str_eqb_eq in Heq. subst g. exists true. split; [reflexivity |].
      split; [| reflexivity]. intros _. exists time. split; [lia | exact Hg].
    + destruct (IH (time + 1)) as (b & Hrun & Hb). exists b. split; [exact Hrun |].
      rewrite Hb. split.
      * intros (c & Hc & Hgc). exists c. split; [lia | exact Hgc].
      * intros (c & Hc & Hgc). destruct (Z.eq_dec c time) as [-> | Hne].
        -- rewrite Hg in Hgc. injection Hgc as ->.
           assert (Ht : TOTP.str_eqb code code = true) by (apply str_eqb_eq; reflexivity).
           congruence.
        -- exists c. split; [lia | exact Hgc].
Qed.

Lemma Validate_range (self : TOTP.t) (now : Z) (secret code : list ascii) :
  let w := TOTP.Window self in
  window_in_range now w ->
  TOTP.Validate self now secret code =
    TOTP.Validate_loop self secret code ((now - 30 * w) / 30)
      (Z.to_nat ((now + 30 * w) / 30 - (now - 30 * w) / 30)).
Proof.
  intros w (Hint & Hlow & Hhigh). unfold TOTP.Validate. fold w.
  unfold INT_MIN, INT_MAX, LONG_MAX in *.
  assert (Hi : TOTP.int_result (30 * w) = Ok (30 * w)).
  { unfold TOTP.int_result, INT_MIN, INT_MAX.
    destruct (Z.leb_spec (- 2 ^ 31) (30 * w)); [| lia].
    destruct (Z.leb_spec (30 * w) (2 ^ 31 - 1)); [| lia]. reflexivity. }
  assert (Hl : forall z, 0 <= z <= 2 ^ 63 - 1 -> TOTP.long_result z = Ok z).
  { intros z Hz. unfold TOTP.long_result, LONG_MIN, LONG_MAX.
    destruct (Z.leb_spec (- 2 ^ 63) z); [| lia].
    destruct (Z.leb_spec z (2 ^ 63 - 1)); [| lia]. reflexivity. }
  rewrite Hi. cbn [bind]. rewrite !Hl by lia. cbn [bind].
  rewrite !Z.quot_div_nonneg by lia.
  unfold u64. rewrite !Z.mod_small by (Z.div_mod_to_equations; lia).
  reflexivity.
Qed.

Lemma Validate_iff (self : TOTP.t) (now : Z) (secret code : list ascii) :
  let w := TOTP.Window self in
  window_in_range now w ->
  (forall t, exists g, TOTP.Generate self secret t = Ok g) ->
  exists b, TOTP.Validate self now secret code = Ok b /\
    (b = true <->
     exists c, (now - 30 * w) / 30 <= c < (now + 30 * w) / 30 /\
               TOTP.Generate self secret c = Ok code).
Proof.
  intros w Hrange Hdef. rewrite Validate_range by exact Hrange. fold w.
  destruct (Validate_loop_iff self secret code
              (Z.to_nat ((now + 30 * w) / 30 - (now - 30 * w) / 30))
              ((now - 30 * w) / 30) Hdef) as (b & Hrun & Hb).
  exists b. split; [exact Hrun |]. rewrite Hb.
  split; intros (c & Hc & Hg); exists c; (split; [| exact Hg]); lia.
Qed.

Lemma Validate_false_iff (self : TOTP.t) (now : Z) (secret code : list ascii) :
  let w := TOTP.Window self in
  window_in_range now w ->
  (forall t, exists g, TOTP.Generate self secret t = Ok g) ->
  (forall c, (now - 30 * w) / 30 <= c < (now + 30 * w) / 30 ->
             TOTP.Generate self secret c <> Ok code) ->
  TOTP.Validate self now secret code = Ok false.
Proof.
  intros w Hrange Hdef Hnone.
  destruct (Validate_iff self now secret code Hrange Hdef) as (b & Hrun & Hb).
  destruct b; [| exact Hrun].
  destruct (proj1 Hb eq_refl) as (c & Hc & Hg). exfalso. exact (Hnone c Hc Hg).
Qed.

Lemma Validate_true_iff (self : TOTP.t) (now : Z) (secret code : list ascii) (c : Z) :
  let w := TOTP.Window self in
  window_in_range now w ->
  (forall t, exists g, TOTP.Generate self secret t = Ok g) ->
  (now - 30 * w) / 30 <= c < (now + 30 * w) / 30 ->
  TOTP.Generate self secret c = Ok code ->
  TOTP.Validate self now secret code = Ok true.
Proof.
  intros w Hrange Hdef Hc Hg.
  destruct (Validate_iff self now secret code Hrange Hdef) as (b & Hrun & Hb).
  assert (b = true) as -> by (apply Hb; exists c; split; assumption).
  exact Hrun.
Qed.

(** C2.  For every window [w] in range at the time [now] and every
    secret for which [Generate] is defined, [Validate] tries the counters of the
    half-open range from [start = floor((now - 30 w) / 30)] up to but not
    including [stop = floor((now + 30 w) / 30)], and returns true iff
    [Generate] gives the candidate for one of them.  The counter [stop]
    is not tried: its code is rejected unless a counter of the range gives
    the same code.  For [w = 1] the codes of the counters
    [floor(now / 30) - 1] and [floor(now / 30)] are accepted and the codes of
    the counters two steps away are rejected, again unless a counter of
    the range gives the same code. *)
Theorem Validate_half_open_window (self : TOTP.t) (now : Z) (secret : list ascii) :
  let w := TOTP.Window self in
  let start := (now - 30 * w) / 30 in
  let stop := (now + 30 * w) / 30 in
  window_in_range now w ->
  (forall t, exists g, TOTP.Generate self secret t = Ok g) ->
  (forall code, exists b,
     TOTP.Validate self now secret code = Ok b /\
     (b = true <->
      exists c, start <= c < stop /\ TOTP.Generate self secret c = Ok code)) /\
  start = now / 30 - w /\ stop = now / 30 + w /\
  (forall code,
     TOTP.Generate self secret stop = Ok code ->
     (forall c, start <= c < stop -> TOTP.Generate self secret c <> Ok code) ->
     TOTP.Validate self now secret code = Ok false) /\
  (w = 1 ->
   (forall code,
      TOTP.Generate self secret (now / 30 - 1) = Ok code \/
      TOTP.Generate self secret (now / 30) = Ok code ->
      TOTP.Validate self now secret code = Ok true) /\
   (forall code,
      TOTP.Generate self secret (now / 30 - 2) = Ok code \/
      TOTP.Generate self secret (now / 30 + 2) = Ok code ->
      TOTP.Generate self secret (now / 30 - 1) <> Ok code ->
      TOTP.Generate self secret (now / 30) <> Ok code ->
      TOTP.Validate self now secret code = Ok false)).
Proof.
  intros w start stop Hrange Hdef.
  assert (Hstart : start = now / 30 - w) by (subst start; Z.div_mod_to_equations; lia).
  assert (Hstop : stop = now / 30 + w) by (subst stop; Z.div_mod_to_equations; lia).
  split; [intros code; apply Validate_iff; assumption |].
  split; [exact Hstart |]. split; [exact Hstop |]. split.
  - intros code _ Hnone. apply Validate_false_iff; assumption.
  - intros Hw. split.
    + intros code [Hg | Hg].
      * apply (Validate_true_iff self now secret code (now / 30 - 1)); try assumption.
        fold w start stop. lia.
      * apply (Validate_true_iff self now secret code (now / 30)); try assumption.
        fold w start stop. lia.
    + intros code _ Hn1 Hn0. apply Validate_false_iff; try assumption.
      fold w start stop. intros c Hc.
      assert (Hcases : c = now / 30 - 1 \/ c = now / 30) by lia.
      destruct Hcases as [-> | ->]; assumption.
Qed.

Lemma Validate_half_open_window_witness :
  window_in_range 200 1 /\
  (forall t, exists g, TOTP.Generate (toy 1) (lit "JBSWY3DP") t = Ok g) /\
  TOTP.Validate (toy 1) 200 (lit "JBSWY3DP") (lit "886080") = Ok true /\
  TOTP.Validate (toy 1) 200 (lit "JBSWY3DP") (lit "663296") = Ok true /\
  TOTP.Validate (toy 1) 200 (lit "JBSWY3DP") (lit "440512") = Ok false.
Proof.
  assert (Hrange : window_in_range 200 (TOTP.Window (toy 1))).
  { vm_compute. repeat split; congruence. }
  assert (Hdef : forall t, exists g, TOTP.Generate (toy 1) (lit "JBSWY3DP") t = Ok g).
  { apply (Generate_defined toy_provider 1 (lit "JBSWY3DP") (lit "Hello")).
    - apply toy_digest_sized.
    - reflexivity. }
  split; [exact Hrange |]. split; [exact Hdef |].
  destruct (Validate_half_open_window (toy 1) 200 (lit "JBSWY3DP") Hrange Hdef)
    as (_ & _ & _ & Hstop & Hone).
  destruct (Hone eq_refl) as [Hacc _].
  split; [apply Hacc; left; reflexivity |].
  split; [apply Hacc; right; reflexivity |].
  apply Hstop; [reflexivity |].
  intros c Hc.
  assert (Hcases : c = 5 \/ c = 6).
  { change ((200 - 30 * TOTP.Window (toy 1)) / 30) with 5 in Hc.
    change ((200 + 30 * TOTP.Window (toy 1)) / 30) with 7 in Hc. lia. }
  destruct Hcases as [-> | ->]; vm_compute; discriminate.
Defined.

(** C2 does not hold for every window, secret and code.  At the time
    1700000000 a window of 60000000 steps reaches before the epoch: the
    counter [floor(now / 30) = 56666666] lies in the range of the claim, and
    its code is rejected, because the negative start counter wraps to the
    top of [unsigned long] and the loop does not run.  On the secret
    [IE======] [Validate] returns neither true nor false: it stops in the
    shift of [Decode].  And a code of the counter [stop] is accepted when a
    counter of the range has the same code: with the window of 64 steps at
    the time 2070 the range is [5, 133), and the counters 133 and 5 give
    the same 6 digits. *)
Lemma Validate_half_open_window_counterexample :
  ((1700000000 - 30 * 60000000) / 30 <= 56666666 < (1700000000 + 30 * 60000000) / 30 /\
   1700000000 / 30 = 56666666 /\
   TOTP.Generate (toy 60000000) (lit "JBSWY3DP") 56666666 = Ok (lit "808771") /\
   TOTP.Validate (toy 60000000) 1700000000 (lit "JBSWY3DP") (lit "808771") = Ok false) /\
  TOTP.Validate (toy 1) 200 (lit "IE======") (lit "123456") =
    Undefined (ShiftTooWide (2 ^ 64 - 1)) /\
  ((2070 - 30 * 64) / 30 = 5 /\ (2070 + 30 * 64) / 30 = 133 /\
   TOTP.Generate (toy 64) (lit "JBSWY3DP") 133 = Ok (lit "886080") /\
   TOTP.Validate (toy 64) 2070 (lit "JBSWY3DP") (lit "886080") = Ok true).
Proof.
  split; [| split].
  - split; [split; [apply Z.leb_le | apply Z.ltb_lt]; reflexivity |].
    split; [reflexivity |]. split; vm_compute; reflexivity.
  - vm_compute. reflexivity.
  - split; [reflexivity |]. split; [reflexivity |]. split; vm_compute; reflexivity.
Qed.

(** ** No provider loaded *)

(** C5.  Without a provider [Generate] returns the empty string for every
    secret and counter, and [Validate] compares that empty string with the
    candidate: with the default window of 5 it returns true for the empty
    candidate code. *)
Theorem Validate_unloaded_accepts_empty_code (secret : list ascii) (time : Z) :
  TOTP.Generate (unloaded 5) secret time = Ok [] /\
  TOTP.Validate (unloaded 5) 1700000000 secret [] = Ok true.
Proof.
  split; reflexivity.
Qed.

Lemma Validate_unloaded (w now : Z) (secret code : list ascii) :
  window_in_range now w ->
  exists b, TOTP.Validate (unloaded w) now secret code = Ok b /\
    (b = true <-> code = [] /\ 1 <= w).
Proof.
  intros Hrange.
  destruct (Validate_iff (unloaded w) now secret code Hrange
              (fun t => ex_intro _ [] (Generate_unloaded w secret t))) as (b & Hrun & Hb).
  exists b. split; [exact Hrun |]. rewrite Hb. cbn [TOTP.Window unloaded].
  split.
  - intros (c & Hc & Hg). rewrite Generate_unloaded in Hg. injection Hg as <-.
    split; [reflexivity |]. Z.div_mod_to_equations. lia.
  - intros [-> Hw]. exists (now / 30). split; [| apply Generate_unloaded].
    Z.div_mod_to_equations. lia.
Qed.

(** ** Decode where its behaviour is not defined *)

Lemma final_byte_arith (b l : Z) :
  3 <= l < 8 -> 0 <= b < 2 ^ 32 ->
  (u32 (Z.shiftl b 5) / 2 ^ (l - 3)) mod 2 ^ 8 = (b mod 2 ^ l) * 2 ^ (8 - l).
Proof.
  intros Hl Hb. unfold u32. rewrite Z.shiftl_mul_pow2 by lia.
  assert (Hcases : l = 3 \/ l = 4 \/ l = 5 \/ l = 6 \/ l = 7) by lia.
  destruct Hcases as [-> | [-> | [-> | [-> | ->]]]]; closed_exponents; div_mod_lia.
Qed.

Lemma Decode_finish_cases (st : Base32.DecodeState) (r : list ascii) :
  decode_inv st ->
  Base32.count st <= Z.of_nat (length (Base32.ret st)) ->
  let l := Base32.left st in
  let c := Z.to_nat (Base32.count st) in
  let p := Base32.buffer st mod 2 ^ l in
  Base32.Decode_finish st = Ok r <->
  (l = 0 /\ r = firstn c (Base32.ret st)) \/
  (3 <= l /\ (c < length (Base32.ret st))%nat /\
   r = firstn c (Base32.ret st) ++ [to_char (p * 2 ^ (8 - l))]).
Proof.
  intros (Hl & Hb & Hc) Hroom l c p. subst l c p.
  destruct st as [rt l c b]. cbn [Base32.left Base32.buffer Base32.count Base32.ret] in *.
  unfold Base32.Decode_finish. cbn [Base32.left Base32.buffer Base32.count Base32.ret].
  destruct (Z.eqb_spec l 0) as [-> | Hnz].
  - unfold resize. replace (Z.to_nat c - length rt)%nat with 0%nat by lia.
    cbn [repeat]. rewrite app_nil_r. split.
    + intros H. injection H as <-. left. split; reflexivity.
    + intros [[_ ->] | [Hbad _]]; [reflexivity | lia].
  - destruct (Z.lt_ge_cases l 3) as [Hlow | Hhigh].
    + assert (Hwrap : u64 (l - 3) = l - 3 + 2 ^ 64).
      { unfold u64. Z.div_mod_to_equations. lia. }
      rewrite Hwrap. unfold shr32.
      destruct (Z.ltb_spec (l - 3 + 2 ^ 64) 32) as [Hbad | _]; [lia |].
      cbn [bind]. split; [discriminate |].
      intros [[Hbad _] | [Hbad _]]; lia.
    + assert (Hsmall : u64 (l - 3) = l - 3) by (unfold u64; apply Z.mod_small; lia).
      rewrite Hsmall. unfold shr32.
      destruct (Z.ltb_spec (l - 3) 32) as [_ | Hbad]; [| lia].
      cbn [bind]. rewrite Z.shiftr_div_pow2 by lia.
      rewrite (land_mask _ 8 255) by (reflexivity || lia).
      rewrite final_byte_arith by lia.
      destruct (Z.ltb_spec c (Z.of_nat (length rt))) as [Hin | Hout].
      * rewrite str_set_ok by lia. cbn [bind]. unfold resize.
        rewrite length_set by lia.
        replace (Z.to_nat (c + 1)) with (S (Z.to_nat c)) by lia.
        rewrite firstn_set by lia.
        replace (S (Z.to_nat c) - length rt)%nat with 0%nat by lia.
        cbn [repeat]. rewrite app_nil_r. split.
        -- intros H. injection H as <-. right.
           split; [lia |]. split; [lia | reflexivity].
        -- intros [[Hbad _] | (_ & _ & ->)]; [lia | reflexivity].
      * rewrite str_set_bad by lia. cbn [bind]. split; [discriminate |].
        intros [[Hbad _] | (_ & Hbad & _)]; lia.
Qed.

(** When [Decode] returns: the bytes of the regrouping fit the string
    allocated from the length of the input, and the bits left over are
    none or at least 3. *)
Lemma Decode_Ok_iff (data r : list ascii) :
  let out := fst (regroup 0 0 (valid_values data)) in
  let p := fst (snd (regroup 0 0 (valid_values data))) in
  let l := snd (snd (regroup 0 0 (valid_values data))) in
  let cap := (length data * 5 / 8)%nat in
  Base32.Decode data = Ok r <->
  (l = 0 /\ (length out <= cap)%nat /\ r = map to_char out) \/
  (3 <= l /\ (length out + 1 <= cap)%nat /\
   r = map to_char (out ++ [p * 2 ^ (8 - l)])).
Proof.
  intros out p l cap. unfold Base32.Decode. rewrite Decode_loop_push_all.
  pose proof (push_all_regroup (valid_values data) (resize zero cap []) 0 0 0) as H.
  rewrite length_resize in H.
  specialize (H ltac:(lia) ltac:(lia) ltac:(lia) (valid_values_range data)).
  cbv zeta in H. change (0 mod 2 ^ 0) with 0 in H.
  fold out p l in H. destruct H as [Hok Hbad].
  unfold Base32.Decode_init. fold cap.
  destruct (Nat.le_gt_cases (length out) cap) as [Hfit | Hover].
  - destruct (Hok ltac:(lia)) as (st' & Hrun & Hinv & Hl' & Hp' & Hc' & Hlen' & Hpre).
    rewrite Hrun. cbn [bind].
    rewrite (Decode_finish_cases st' r Hinv ltac:(lia)).
    cbn [Z.to_nat firstn app] in Hpre.
    assert (Hcn : Z.to_nat (Base32.count st') = length out) by lia.
    rewrite Hpre, Hl', Hp', Hlen', Hcn.
    rewrite map_app. cbn [map]. split.
    + intros [[H0 ->] | (H3 & Hlt & ->)].
      * left. split; [exact H0 |]. split; [exact Hfit | reflexivity].
      * right. split; [exact H3 |]. split; [lia | reflexivity].
    + intros [(H0 & _ & ->) | (H3 & Hlt & ->)].
      * left. split; [exact H0 | reflexivity].
      * right. split; [exact H3 |]. split; [lia | reflexivity].
  - destruct (Hbad ltac:(lia)) as (i & n & Hrun). rewrite Hrun. cbn [bind].
    split; [discriminate |].
    intros [(_ & Hfit & _) | (_ & Hfit & _)]; lia.
Qed.

Lemma junk_inserted_values (s s' : list ascii) :
  junk_inserted s s' -> valid_values s' = valid_values s /\ (length s <= length s')%nat.
Proof.
  intros H. induction H as [| c s s' H [IHv IHl] | c s s' Hc H [IHv IHl]].
  - split; [reflexivity | lia].
  - unfold valid_values in *. cbn [map filter length]. rewrite IHv. split; [reflexivity | lia].
  - unfold valid_values in *. cbn [map filter length].
    pose proof (find_junk c Hc) as Hj.
    destruct (Z.ltb_spec (Base32.Base32Chars_find c) 32) as [Hlt | _]; [lia |].
    split; [exact IHv | lia].
Qed.

(** Characters outside the alphabet are skipped: where [Decode] is
    defined on [s], it returns the same bytes on [s] with such
    characters inserted. *)
Lemma Decode_junk_inserted (s s' r : list ascii) :
  junk_inserted s s' -> Base32.Decode s = Ok r -> Base32.Decode s' = Ok r.
Proof.
  intros Hj Hs. destruct (junk_inserted_values s s' Hj) as [Hv Hlen].
  apply Decode_Ok_iff. apply Decode_Ok_iff in Hs. cbv zeta in *. rewrite Hv.
  assert (Hcap : (length s * 5 / 8 <= length s' * 5 / 8)%nat).
  { apply Nat.Div0.div_le_mono. lia. }
  destruct Hs as [(H0 & Hfit & ->) | (H3 & Hfit & ->)].
  - left. split; [exact H0 |]. split; [lia | reflexivity].
  - right. split; [exact H3 |]. split; [lia | reflexivity].
Qed.

Lemma regroup_left_mod (vals : list Z) (p l : Z) :
  0 <= l < 8 ->
  snd (snd (regroup p l vals)) = (l + 5 * Z.of_nat (length vals)) mod 8.
Proof.
  revert p l. induction vals as [| v vals IH]; intros p l Hl.
  - cbn [regroup snd length]. rewrite Z.mod_small by lia. lia.
  - cbn [regroup]. destruct (Z.leb_spec 8 (l + 5)) as [H8 | H8].
    + specialize (IH ((p * 32 + v) mod 2 ^ (l + 5 - 8)) (l + 5 - 8) ltac:(lia)).
      destruct (regroup ((p * 32 + v) mod 2 ^ (l + 5 - 8)) (l + 5 - 8) vals) as [out fin].
      cbn [snd] in *. rewrite IH. cbn [length].
      Z.div_mod_to_equations. lia.
    + rewrite IH by lia. cbn [length]. f_equal. lia.
Qed.

(** The bits left over when the scanning loop ends: [5 k mod 8] for [k]
    valid characters, which is below 3 exactly for [k mod 8] in [{2, 5}]. *)
Lemma Decode_loop_left (data : list ascii) (st : Base32.DecodeState) :
  Base32.Decode_loop (Base32.Decode_init data) data = Ok st ->
  let k := Z.of_nat (length (valid_values data)) in
  Base32.left st = (5 * k) mod 8 /\
  (0 < Base32.left st < 3 <-> k mod 8 = 2 \/ k mod 8 = 5).
Proof.
  intros Hrun k. rewrite Decode_loop_push_all in Hrun.
  pose proof (push_all_regroup (valid_values data)
                (resize zero (length data * 5 / 8) []) 0 0 0) as H.
  rewrite length_resize in H.
  specialize (H ltac:(lia) ltac:(lia) ltac:(lia) (valid_values_range data)).
  cbv zeta in H. change (0 mod 2 ^ 0) with 0 in H.
  rewrite (regroup_left_mod _ 0 0) in H by lia. fold k in H.
  unfold Base32.Decode_init in Hrun. destruct H as [Hok Hbad].
  assert (Hleft : Base32.left st = (5 * k) mod 8).
  { destruct (Z.le_gt_cases
                (0 + Z.of_nat (length (fst (regroup 0 0 (valid_values data)))))
                (Z.of_nat (length data * 5 / 8))) as [Hfit | Hover].
    - destruct (Hok Hfit) as (st' & Hrun' & _ & Hl' & _).
      rewrite Hrun in Hrun'. injection Hrun' as <-. exact Hl'.
    - destruct (Hbad ltac:(lia)) as (i & n & Hrun'). congruence. }
  split; [exact Hleft |]. rewrite Hleft. Z.div_mod_to_equations. lia.
Qed.

(** C9.  [Encode] turns the single byte "A" into "IE======"; on that
    string the scanning loop of [Decode] ends with 2 bits left over, the
    final-byte branch is taken, and its shift amount [left - 3] wraps to
    [2^64 - 1], for which the shift of a 32-bit operand is not defined. *)
Theorem Decode_shift_amount_underflow :
  Base32.Encode (lit "A") 0 = lit "IE======" /\
  Base32.Decode_loop (Base32.Decode_init (lit "IE======")) (lit "IE======") =
    Ok (Base32.mkDecodeState ("A"%char :: repeat zero 4) 2 1 260) /\
  u64 (2 - 3) = 2 ^ 64 - 1 /\
  Base32.Decode (lit "IE======") = Undefined (ShiftTooWide (2 ^ 64 - 1)).
Proof.
  repeat split; reflexivity.
Qed.

(** C10.  For the input "J" the string [ret] is allocated with
    [floor(5 * 1 / 8) = 0] characters, the loop writes nothing, and the
    final-byte branch writes [ret[0]], outside of the string. *)
Theorem Decode_final_byte_out_of_bounds :
  length (Base32.ret (Base32.Decode_init (lit "J"))) = 0%nat /\
  Base32.Decode_loop (Base32.Decode_init (lit "J")) (lit "J") =
    Ok (Base32.mkDecodeState [] 5 0 9) /\
  Base32.Decode (lit "J") = Undefined (OutOfRange 0 0).
Proof.
  repeat split; reflexivity.
Qed.

Lemma junk_J : junk_inserted (lit "J") (lit "J=").
Proof.
  apply ji_keep. apply ji_junk; [apply equals_not_in_alphabet | apply ji_nil].
Qed.

Lemma junk_JBSWY3DP : junk_inserted (lit "JBSWY3DP") (lit "JB-SWY3!DP").
Proof.
  assert (Hnot : forall c, (Base32.Base32Chars_find c <? 32) = false ->
                           ~ In c Base32.Base32Chars).
  { intros c Hc Hin. apply find_valid_iff in Hin. congruence. }
  do 2 apply ji_keep. apply ji_junk; [apply Hnot; reflexivity |].
  do 4 apply ji_keep. apply ji_junk; [apply Hnot; reflexivity |].
  do 2 apply ji_keep. apply ji_nil.
Qed.

Example Decode_lenient_example :
  Base32.Decode (lit "JBSWY3DP") = Ok (lit "Hello") /\
  Base32.Decode (lit "JB-SWY3!DP") = Ok (lit "Hello").
Proof.
  split; reflexivity.
Qed.

(** C6.  The string "J=" is "J" with a character outside the alphabet
    inserted; [Decode] returns the byte "H" on "J=", and on "J" it writes
    outside of the string that it allocated from the length of the input,
    so the two runs do not agree. *)
Theorem Decode_junk_changes_allocation :
  junk_inserted (lit "J") (lit "J=") /\
  Base32.Decode (lit "J=") = Ok (lit "H") /\
  Base32.Decode (lit "J") = Undefined (OutOfRange 0 0) /\
  Base32.Decode (lit "J") <> Base32.Decode (lit "J=").
Proof.
  split; [exact junk_J |]. split; [reflexivity |]. split; [reflexivity |].
  discriminate.
Qed.


(** * Further properties *)

(** ** Decode: the outcome on every input *)

Lemma regroup_out_length (vals : list Z) (p l : Z) :
  0 <= l < 8 ->
  Z.of_nat (length (fst (regroup p l vals))) = (l + 5 * Z.of_nat (length vals)) / 8.
Proof.
  revert p l. induction vals as [| v vals IH]; intros p l Hl.
  - cbn [regroup fst length]. rewrite Z.div_small by lia. reflexivity.
  - cbn [regroup]. destruct (Z.leb_spec 8 (l + 5)) as [H8 | H8].
    + specialize (IH ((p * 32 + v) mod 2 ^ (l + 5 - 8)) (l + 5 - 8) ltac:(lia)).
      destruct (regroup ((p * 32 + v) mod 2 ^ (l + 5 - 8)) (l + 5 - 8) vals) as [out fin].
      cbn [fst length] in *. rewrite Nat2Z.inj_succ, IH.
      rewrite Nat2Z.inj_succ. Z.div_mod_to_equations. lia.
    + rewrite IH by lia. cbn [length]. rewrite Nat2Z.inj_succ. f_equal. lia.
Qed.

Lemma valid_values_length_le (data : list ascii) :
  (length (valid_values data) <= length data)%nat.
Proof.
  unfold valid_values.
  rewrite <- (length_map Base32.Base32Chars_find data). apply filter_length_le.
Qed.

(** The scanning loop always runs to its end: the bytes that it writes
    fit the string allocated from the length of the input. *)
Lemma Decode_loop_total (data : list ascii) :
  let out := fst (regroup 0 0 (valid_values data)) in
  let p := fst (snd (regroup 0 0 (valid_values data))) in
  let l := snd (snd (regroup 0 0 (valid_values data))) in
  let cap := (length data * 5 / 8)%nat in
  (length out <= cap)%nat /\
  exists st, Base32.Decode_loop (Base32.Decode_init data) data = Ok st /\
    decode_inv st /\ Base32.left st = l /\ Base32.buffer st mod 2 ^ l = p /\
    Base32.count st = Z.of_nat (length out) /\
    length (Base32.ret st) = cap /\
    firstn (length out) (Base32.ret st) = map to_char out.
Proof.
  intros out p l cap.
  assert (Hfit : (length out <= cap)%nat).
  { pose proof (regroup_out_length (valid_values data) 0 0 ltac:(lia)) as Hlen.
    fold out in Hlen. pose proof (valid_values_length_le data) as Hle.
    subst cap. nat_div_lia. }
  split; [exact Hfit |].
  rewrite Decode_loop_push_all.
  pose proof (push_all_regroup (valid_values data) (resize zero cap []) 0 0 0) as H.
  rewrite length_resize in H.
  specialize (H ltac:(lia) ltac:(lia) ltac:(lia) (valid_values_range data)).
  cbv zeta in H. change (0 mod 2 ^ 0) with 0 in H. fold out p l in H.
  destruct H as [Hok _].
  destruct (Hok ltac:(lia)) as (st & Hrun & Hinv & Hl & Hp & Hc & Hlen & Hpre).
  exists st. unfold Base32.Decode_init. fold cap.
  split; [exact Hrun |]. split; [exact Hinv |]. split; [exact Hl |].
  split; [exact Hp |]. split; [lia |]. split; [exact Hlen |].
  rewrite Hc in Hpre. cbn [Z.to_nat firstn app] in Hpre.
  replace (Z.to_nat (0 + Z.of_nat (length out))) with (length out) in Hpre by lia.
  exact Hpre.
Qed.

Lemma Decode_finish_outcome (st : Base32.DecodeState) :
  decode_inv st ->
  Base32.count st <= Z.of_nat (length (Base32.ret st)) ->
  let l := Base32.left st in
  let c := Base32.count st in
  let p := Base32.buffer st mod 2 ^ l in
  Base32.Decode_finish st =
    if l =? 0 then Ok (firstn (Z.to_nat c) (Base32.ret st))
    else if l <? 3 then Undefined (ShiftTooWide (l - 3 + 2 ^ 64))
    else if c <? Z.of_nat (length (Base32.ret st))
         then Ok (firstn (Z.to_nat c) (Base32.ret st) ++ [to_char (p * 2 ^ (8 - l))])
         else Undefined (OutOfRange c (Z.of_nat (length (Base32.ret st)))).
Proof.
  intros (Hl & Hb & Hc) Hroom l c p. subst l c p.
  destruct st as [rt l c b]. cbn [Base32.left Base32.buffer Base32.count Base32.ret] in *.
  unfold Base32.Decode_finish. cbn [Base32.left Base32.buffer Base32.count Base32.ret].
  destruct (Z.eqb_spec l 0) as [-> | Hnz].
  - unfold resize. replace (Z.to_nat c - length rt)%nat with 0%nat by lia.
    cbn [repeat]. rewrite app_nil_r. reflexivity.
  - destruct (Z.ltb_spec l 3) as [Hlow | Hhigh].
    + assert (Hwrap : u64 (l - 3) = l - 3 + 2 ^ 64).
      { unfold u64. Z.div_mod_to_equations. lia. }
      rewrite Hwrap. unfold shr32.
      destruct (Z.ltb_spec (l - 3 + 2 ^ 64) 32) as [Hbad | _]; [lia |]. reflexivity.
    + assert (Hsmall : u64 (l - 3) = l - 3) by (unfold u64; apply Z.mod_small; lia).
      rewrite Hsmall. unfold shr32.
      destruct (Z.ltb_spec (l - 3) 32) as [_ | Hbad]; [| lia].
      cbn [bind]. rewrite Z.shiftr_div_pow2 by lia.
      rewrite (land_mask _ 8 255) by (reflexivity || lia).
      rewrite final_byte_arith by lia.
      destruct (Z.ltb_spec c (Z.of_nat (length rt))) as [Hin | Hout].
      * rewrite str_set_ok by lia. cbn [bind]. unfold resize.
        rewrite length_set by lia.
        replace (Z.to_nat (c + 1)) with (S (Z.to_nat c)) by lia.
        rewrite firstn_set by lia.
        replace (S (Z.to_nat c) - length rt)%nat with 0%nat by lia.
        cbn [repeat]. rewrite app_nil_r. reflexivity.
      * rewrite str_set_bad by lia. reflexivity.
Qed.

(** [Decode] as a function of the regrouped bits and of the room. *)
Lemma Decode_outcome (data : list ascii) :
  let out := fst (regroup 0 0 (valid_values data)) in
  let p := fst (snd (regroup 0 0 (valid_values data))) in
  let l := snd (snd (regroup 0 0 (valid_values data))) in
  let cap := (length data * 5 / 8)%nat in
  Base32.Decode data =
    if l =? 0 then Ok (map to_char out)
    else if l <? 3 then Undefined (ShiftTooWide (l - 3 + 2 ^ 64))
    else if (length out <? cap)%nat
         then Ok (map to_char (out ++ [p * 2 ^ (8 - l)]))
         else Undefined (OutOfRange (Z.of_nat (length out)) (Z.of_nat cap)).
Proof.
  intros out p l cap.
  destruct (Decode_loop_total data) as (Hfit & st & Hrun & Hinv & Hl & Hp & Hc & Hlen & Hpre).
  fold out p l cap in Hfit, Hl, Hp, Hc, Hlen, Hpre.
  unfold Base32.Decode. rewrite Hrun. cbn [bind].
  rewrite Decode_finish_outcome by (assumption || lia).
  rewrite Hl, Hp, Hc, Hlen, Nat2Z.id, Hpre.
  destruct (l =? 0); [reflexivity |]. destruct (l <? 3); [reflexivity |].
  destruct (Nat.ltb_spec (length out) cap) as [Hlt | Hge].
  - destruct (Z.ltb_spec (Z.of_nat (length out)) (Z.of_nat cap)); [| lia].
    rewrite map_app. reflexivity.
  - destruct (Z.ltb_spec (Z.of_nat (length out)) (Z.of_nat cap)); [lia |]. reflexivity.
Qed.

(** ** Decode after Encode on every length *)

Lemma resize_grow {A : Type} (d : A) (m : nat) (l : list A) :
  (length l <= m)%nat -> resize d m l = l ++ repeat d (m - length l).
Proof.
  intros H. unfold resize. rewrite firstn_all2 by exact H. reflexivity.
Qed.

Lemma map_uchar_resize (n : nat) (l : list ascii) :
  map uchar (resize zero n l) = resize 0 n (map uchar l).
Proof.
  unfold resize. rewrite map_app, firstn_map, map_repeat, length_map. reflexivity.
Qed.

(** The vector of the block loop: the [len] bytes taken from the input
    (zero bytes where the input is shorter), then zeros up to a whole
    block. *)
Lemma Encode_data_taken (input : list ascii) (len : nat) :
  Base32.Encode_data input len =
    map uchar (resize zero len input) ++ repeat 0 (5 * Base32.Encode_blocks len - len).
Proof.
  unfold Base32.Encode_data, Base32.Encode_blocks. rewrite map_uchar_resize.
  destruct (Nat.eqb_spec (len mod 5) 0) as [H0 | H0].
  - replace (5 * (len / 5) - len)%nat with 0%nat by nat_div_lia.
    cbn [repeat]. rewrite app_nil_r. reflexivity.
  - rewrite resize_grow by (rewrite length_resize; pose proof (Nat.mod_upper_bound len 5); lia).
    rewrite length_resize. f_equal. f_equal.
    pose proof (Nat.mod_upper_bound len 5 ltac:(lia)). nat_div_lia.
Qed.

Lemma valid_values_app (a b : list ascii) :
  valid_values (a ++ b) = valid_values a ++ valid_values b.
Proof.
  unfold valid_values. rewrite map_app, filter_app. reflexivity.
Qed.

Lemma valid_values_padding (p : nat) : valid_values (repeat "="%char p) = [].
Proof.
  induction p as [| p IH]; [reflexivity |].
  cbn [repeat]. change ("="%char :: repeat "="%char p) with (["="%char] ++ repeat "="%char p).
  rewrite valid_values_app, IH. reflexivity.
Qed.

(** The valid characters of an encoded string are the symbols kept. *)
Lemma valid_values_Encode (input : list ascii) (len : nat) :
  let n := effective_len input len in
  valid_values (Base32.Encode input len) =
    firstn (8 * Base32.Encode_blocks n - padding_table (n mod 5))
      (symbols_of (Base32.Encode_data input n) (Base32.Encode_blocks n)).
Proof.
  intros n. destruct (Encode_shape input len) as [_ HE]. fold n in HE.
  rewrite HE, valid_values_app, valid_values_padding, app_nil_r.
  rewrite Encode_symbols_length, Encode_symbols_values, firstn_map.
  apply valid_values_at. apply Forall_firstn_of. apply symbols_of_range.
  apply Encode_data_bytes.
Qed.

Lemma Encode_length (input : list ascii) (len : nat) :
  length (Base32.Encode input len) = (8 * Base32.Encode_blocks (effective_len input len))%nat.
Proof.
  destruct (Encode_shape input len) as [Hp HE].
  rewrite HE, length_app, length_firstn, repeat_length.
  rewrite Encode_symbols_length in *. lia.
Qed.

Lemma valid_count_Encode (input : list ascii) (len : nat) :
  let n := effective_len input len in
  length (valid_values (Base32.Encode input len)) =
    (8 * Base32.Encode_blocks n - padding_table (n mod 5))%nat.
Proof.
  intros n. rewrite valid_values_Encode. fold n.
  rewrite length_firstn, symbols_of_length. lia.
Qed.

Lemma Decode_left_by_count (data : list ascii) :
  snd (snd (regroup 0 0 (valid_values data))) =
    (5 * Z.of_nat (length (valid_values data))) mod 8.
Proof.
  rewrite (regroup_left_mod _ 0 0) by lia. reflexivity.
Qed.

Lemma Decode_out_by_count (data : list ascii) :
  Z.of_nat (length (fst (regroup 0 0 (valid_values data)))) =
    (5 * Z.of_nat (length (valid_values data))) / 8.
Proof.
  rewrite (regroup_out_length _ 0 0) by lia. reflexivity.
Qed.

Lemma Decode_shift_fault (data : list ascii) (l : Z) :
  (5 * Z.of_nat (length (valid_values data))) mod 8 = l -> 0 < l < 3 ->
  Base32.Decode data = Undefined (ShiftTooWide (l - 3 + 2 ^ 64)).
Proof.
  intros Hl Hrange. rewrite Decode_outcome. cbv zeta.
  rewrite Decode_left_by_count, Hl.
  destruct (Z.eqb_spec l 0); [lia |]. destruct (Z.ltb_spec l 3); [reflexivity | lia].
Qed.

(** X1.  The outcome of [Decode] from two counts: [k] characters of the
    alphabet among the [n] characters of the input.  With [5 k mod 8 = 0]
    it returns [5 k / 8] bytes; with 1 or 2 bits left over the final shift
    is undefined; with 3 or more it returns one byte more if
    [floor(5 n / 8)] has room for it and writes out of bounds if not. *)
Theorem Decode_outcome_by_counts (data : list ascii) :
  let k := Z.of_nat (length (valid_values data)) in
  let l := (5 * k) mod 8 in
  let m := (5 * k) / 8 in
  let cap := (Z.of_nat (length data) * 5) / 8 in
  (l = 0 -> exists r, Base32.Decode data = Ok r /\ Z.of_nat (length r) = m) /\
  (0 < l < 3 -> Base32.Decode data = Undefined (ShiftTooWide (l - 3 + 2 ^ 64))) /\
  (3 <= l -> m < cap ->
   exists r, Base32.Decode data = Ok r /\ Z.of_nat (length r) = m + 1) /\
  (3 <= l -> cap <= m -> Base32.Decode data = Undefined (OutOfRange m cap)).
Proof.
  intros k l m cap.
  pose proof (Decode_outcome data) as H. cbv zeta in H.
  rewrite Decode_left_by_count in H. fold k l in H.
  pose proof (Decode_out_by_count data) as Hm. fold k m in Hm.
  assert (Hcap : Z.of_nat (length data * 5 / 8) = cap) by (subst cap; nat_div_lia).
  split; [| split; [| split]].
  - intros H0. rewrite H0 in H. cbn [Z.eqb] in H. eexists. split; [exact H |].
    rewrite length_map. exact Hm.
  - intros Hl. apply Decode_shift_fault; [reflexivity | exact Hl].
  - intros Hl Hroom.
    destruct (Z.eqb_spec l 0); [lia |]. destruct (Z.ltb_spec l 3); [lia |].
    destruct (Nat.ltb_spec (length (fst (regroup 0 0 (valid_values data))))
                (length data * 5 / 8)); [| lia].
    eexists. split; [exact H |]. rewrite length_map, length_app. cbn [length]. lia.
  - intros Hl Hroom.
    destruct (Z.eqb_spec l 0); [lia |]. destruct (Z.ltb_spec l 3); [lia |].
    destruct (Nat.ltb_spec (length (fst (regroup 0 0 (valid_values data))))
                (length data * 5 / 8)); [lia |].
    rewrite H, Hm, Hcap. reflexivity.
Qed.

(** X7.  [Decode] does not decode what [Encode] produces for lengths that
    leave a remainder of 1, 2 or 3 modulo 5: the symbols kept leave 2
    bits (remainder 1) or 1 bit (remainders 2 and 3) after the scan, and
    the shift by [left - 3] is undefined. *)
Theorem Decode_Encode_unaligned_shift_fault (input : list ascii) (len : nat) :
  let n := effective_len input len in
  ((n mod 5 = 1)%nat ->
   Base32.Decode (Base32.Encode input len) = Undefined (ShiftTooWide (2 ^ 64 - 1))) /\
  ((n mod 5 = 2 \/ n mod 5 = 3)%nat ->
   Base32.Decode (Base32.Encode input len) = Undefined (ShiftTooWide (2 ^ 64 - 2))).
Proof.
  intros n. pose proof (valid_count_Encode input len) as Hk. cbv zeta in Hk. fold n in Hk.
  pose proof (padding_of_le n) as Hp. rewrite padding_of_table in Hp.
  split.
  - intros H1. rewrite H1 in Hk, Hp. cbn [padding_table] in Hk, Hp.
    apply (Decode_shift_fault _ 2); [| lia]. rewrite Hk. nat_div_lia.
  - intros H23.
    assert (H3 : padding_table (n mod 5) = 3%nat) by (destruct H23 as [-> | ->]; reflexivity).
    rewrite H3 in Hk, Hp.
    apply (Decode_shift_fault _ 1); [| lia]. rewrite Hk. nat_div_lia.
Qed.

Lemma regroup_symbols_app (k : nat) (data tail : list Z) :
  (5 * k <= length data)%nat -> Forall is_byte data ->
  regroup 0 0 (symbols_of data k ++ tail) =
    (firstn (5 * k) data ++ fst (regroup 0 0 tail), snd (regroup 0 0 tail)).
Proof.
  revert data. induction k as [| k IH]; intros data Hlen Hdata.
  - cbn [symbols_of app Nat.mul firstn]. destruct (regroup 0 0 tail); reflexivity.
  - destruct data as [| d0 [| d1 [| d2 [| d3 [| d4 data]]]]];
      try (cbn [length] in Hlen; lia).
    cbn [symbols_of nth skipn].
    apply Forall_cons_iff in Hdata. destruct Hdata as [H0 Hdata].
    apply Forall_cons_iff in Hdata. destruct Hdata as [H1 Hdata].
    apply Forall_cons_iff in Hdata. destruct Hdata as [H2 Hdata].
    apply Forall_cons_iff in Hdata. destruct Hdata as [H3 Hdata].
    apply Forall_cons_iff in Hdata. destruct Hdata as [H4 Hdata].
    rewrite <- app_assoc, regroup_block by assumption.
    rewrite IH by (cbn [length] in Hlen; lia || exact Hdata). cbn [fst snd].
    replace (5 * S k)%nat with (S (S (S (S (S (5 * k)))))) by lia.
    reflexivity.
Qed.

Lemma symbols_of_snoc (data : list Z) (q : nat) :
  symbols_of data (S q) = symbols_of data q ++ symbols_of (skipn (5 * q) data) 1.
Proof.
  revert data. induction q as [| q IH]; intros data.
  - reflexivity.
  - change (symbols_of data (S (S q))) with
      (block_values (nth 0 data 0) (nth 1 data 0) (nth 2 data 0) (nth 3 data 0) (nth 4 data 0)
         ++ symbols_of (skipn 5 data) (S q)).
    rewrite IH, skipn_skipn. change (symbols_of data (S q)) with
      (block_values (nth 0 data 0) (nth 1 data 0) (nth 2 data 0) (nth 3 data 0) (nth 4 data 0)
         ++ symbols_of (skipn 5 data) q).
    rewrite <- app_assoc. replace (5 * q + 5)%nat with (5 * S q)%nat by lia. reflexivity.
Qed.

(** The seven symbols kept of a last block of 4 bytes. *)
Lemma regroup_seven (e0 e1 e2 e3 e4 : Z) :
  is_byte e0 -> is_byte e1 -> is_byte e2 -> is_byte e3 -> is_byte e4 ->
  regroup 0 0 (firstn 7 (block_values e0 e1 e2 e3 e4)) = ([e0; e1; e2; e3], (e4 / 32, 3)).
Proof.
  unfold is_byte. intros H0 H1 H2 H3 H4.
  unfold block_values. cbn [firstn].
  rewrite regroup_cons_lt by lia. change (0 + 5) with 5.
  rewrite regroup_cons_ge by lia. change (5 + 5 - 8) with 2.
  rewrite regroup_cons_lt by lia. change (2 + 5) with 7.
  rewrite regroup_cons_ge by lia. change (7 + 5 - 8) with 4.
  rewrite regroup_cons_ge by lia. change (4 + 5 - 8) with 1.
  rewrite regroup_cons_lt by lia. change (1 + 5) with 6.
  rewrite regroup_cons_ge by lia. change (6 + 5 - 8) with 3.
  cbn [regroup]. f_equal.
  - f_equal; [div_mod_lia |]. f_equal; [div_mod_lia |]. f_equal; [div_mod_lia |].
    f_equal. div_mod_lia.
  - f_equal. div_mod_lia.
Qed.

Lemma map_to_char_uchar (l : list ascii) : map to_char (map uchar l) = l.
Proof.
  rewrite map_map. rewrite <- (map_id l) at 2. apply map_ext. intros c. apply to_char_uchar.
Qed.

(** X6.  For a length with remainder 4 modulo 5, [Decode] returns what
    [Encode] encoded (the [len] bytes taken from the input, zero bytes
    where the input is shorter) followed by one zero byte: the final-byte
    branch turns the 3 padding bits into a byte of its own. *)
Theorem Decode_Encode_remainder_4 (input : list ascii) (len : nat) :
  let n := effective_len input len in
  (n mod 5 = 4)%nat ->
  Base32.Decode (Base32.Encode input len) = Ok (resize zero n input ++ [zero]).
Proof.
  intros n Hmod.
  set (q := (n / 5)%nat).
  assert (Hn : n = (5 * q + 4)%nat) by (subst q; nat_div_lia).
  assert (Hb : Base32.Encode_blocks n = S q).
  { unfold Base32.Encode_blocks. rewrite Hmod. reflexivity. }
  set (mT := map uchar (resize zero n input)).
  assert (HmT : length mT = (5 * q + 4)%nat).
  { subst mT. rewrite length_map, length_resize. exact Hn. }
  assert (Hdata : Base32.Encode_data input n = mT ++ [0]).
  { rewrite Encode_data_taken, Hb. fold mT.
    replace (5 * S q - n)%nat with 1%nat by lia. reflexivity. }
  assert (Hbytes : Forall is_byte (mT ++ [0])).
  { rewrite <- Hdata. apply Encode_data_bytes. }
  assert (Hlast : exists e0 e1 e2 e3, skipn (5 * q) mT = [e0; e1; e2; e3]).
  { pose proof (length_skipn (5 * q) mT) as Hl. rewrite HmT in Hl.
    destruct (skipn (5 * q) mT) as [| e0 [| e1 [| e2 [| e3 [| e4 t]]]]];
      cbn [length] in Hl; try lia. eauto. }
  destruct Hlast as (e0 & e1 & e2 & e3 & Hlast).
  assert (Htail : skipn (5 * q) (mT ++ [0]) = [e0; e1; e2; e3; 0]).
  { rewrite skipn_app, Hlast, HmT.
    replace (5 * q - (5 * q + 4))%nat with 0%nat by lia. reflexivity. }
  assert (He : is_byte e0 /\ is_byte e1 /\ is_byte e2 /\ is_byte e3).
  { pose proof (Forall_skipn_of is_byte (5 * q) _ Hbytes) as Hs. rewrite Htail in Hs.
    repeat (apply Forall_cons_iff in Hs; destruct Hs as [? Hs]). auto. }
  destruct He as (He0 & He1 & He2 & He3).
  assert (Hvv : valid_values (Base32.Encode input len) =
                symbols_of (mT ++ [0]) q ++ firstn 7 (block_values e0 e1 e2 e3 0)).
  { rewrite valid_values_Encode. fold n. rewrite Hmod, Hb, Hdata. cbn [padding_table].
    rewrite symbols_of_snoc, firstn_app, symbols_of_length.
    rewrite firstn_all2 by (rewrite symbols_of_length; lia).
    replace (8 * S q - 1 - 8 * q)%nat with 7%nat by lia.
    rewrite Htail. cbn [symbols_of nth skipn]. rewrite app_nil_r. reflexivity. }
  assert (Hreg : regroup 0 0 (valid_values (Base32.Encode input len)) =
                 (mT, (0, 3))).
  { rewrite Hvv, regroup_symbols_app by (rewrite ?length_app, ?HmT; cbn [length]; lia || exact Hbytes).
    rewrite regroup_seven by (assumption || (unfold is_byte; lia)).
    cbn [fst snd]. rewrite firstn_app, HmT.
    replace (5 * q - (5 * q + 4))%nat with 0%nat by lia. cbn [firstn].
    rewrite app_nil_r, <- Hlast, firstn_skipn. reflexivity. }
  rewrite Decode_outcome. cbv zeta. rewrite Hreg. cbn [fst snd Z.eqb Z.ltb Z.compare Pos.compare Pos.compare_cont].
  rewrite Encode_length. fold n. rewrite Hb, HmT.
  destruct (Nat.ltb_spec (5 * q + 4) (8 * S q * 5 / 8)) as [_ | Hbad]; [| nat_div_lia].
  rewrite map_app. subst mT. rewrite map_to_char_uchar. reflexivity.
Qed.

Lemma Decode_Encode_remainder_4_witness :
  (effective_len (lit "foob") 0 mod 5 = 4)%nat /\
  Base32.Decode (Base32.Encode (lit "foob") 0) = Ok (lit "foob" ++ [zero]).
Proof.
  split; [reflexivity |].
  apply (Decode_Encode_remainder_4 (lit "foob") 0). reflexivity.
Defined.

(** ** Encode: the length argument and the padding *)

(** X8.  A length argument other than 0 makes [Encode] work on exactly [len]
    bytes: the first [len] bytes of the input, or the input followed by
    zero bytes when it is shorter. *)
Theorem Encode_length_argument (input : list ascii) (len : nat) :
  (0 < len)%nat ->
  Base32.Encode input len = Base32.Encode (resize zero len input) 0.
Proof.
  intros Hlen. unfold Base32.Encode. rewrite length_resize.
  destruct (Nat.eqb_spec len 0) as [H0 | _]; [lia |]. cbn [Nat.eqb].
  assert (Hsym : Base32.Encode_symbols input len =
                 Base32.Encode_symbols (resize zero len input) len).
  { unfold Base32.Encode_symbols. rewrite !Encode_data_taken.
    pose proof (resize_same zero (resize zero len input)) as H.
    rewrite length_resize in H. rewrite H. reflexivity. }
  rewrite Hsym. reflexivity.
Qed.

Lemma Encode_length_argument_witness :
  (0 < 3)%nat /\ Base32.Encode (lit "foobar") 3 = Base32.Encode (lit "foo") 0.
Proof.
  split; [lia |]. apply (Encode_length_argument (lit "foobar") 3). lia.
Defined.

(** X9.  With the padding 3 at remainder 2, [Encode] does not tell a
    sequence of [5 q + 2] bytes from the same sequence followed by one
    zero byte: both give the same string. *)
Theorem Encode_remainder_2_collision (bytes : list ascii) :
  (length bytes mod 5 = 2)%nat ->
  Base32.Encode (bytes ++ [zero]) 0 = Base32.Encode bytes 0.
Proof.
  intros Hmod.
  assert (Hlen : length (bytes ++ [zero]) = S (length bytes)).
  { rewrite length_app. cbn [length]. lia. }
  assert (Hmod' : (S (length bytes) mod 5 = 3)%nat) by nat_div_lia.
  unfold Base32.Encode. cbn [Nat.eqb]. rewrite Hlen, Hmod, Hmod'.
  assert (Hb : Base32.Encode_blocks (S (length bytes)) = Base32.Encode_blocks (length bytes)).
  { unfold Base32.Encode_blocks. rewrite Hmod, Hmod'. cbn [Nat.eqb]. f_equal. nat_div_lia. }
  assert (Hsym : Base32.Encode_symbols (bytes ++ [zero]) (S (length bytes)) =
                 Base32.Encode_symbols bytes (length bytes)).
  { unfold Base32.Encode_symbols. rewrite !Encode_data_taken, Hb.
    pose proof (resize_same zero (bytes ++ [zero])) as H. rewrite Hlen in H.
    rewrite H, resize_same, map_app, <- app_assoc.
    f_equal. f_equal.
    assert (H5 : (5 * Base32.Encode_blocks (length bytes) - length bytes = 3)%nat).
    { unfold Base32.Encode_blocks. rewrite Hmod. cbn [Nat.eqb]. nat_div_lia. }
    rewrite H5. replace (5 * Base32.Encode_blocks (length bytes) - S (length bytes))%nat
      with 2%nat by lia.
    reflexivity. }
  destruct (Nat.eqb_spec (length bytes) 0) as [H0 | _]; [rewrite H0 in Hmod; discriminate |].
  rewrite Hsym. reflexivity.
Qed.

Lemma Encode_remainder_2_collision_witness :
  (length (lit "fo") mod 5 = 2)%nat /\
  Base32.Encode (lit "fo" ++ [zero]) 0 = Base32.Encode (lit "fo") 0.
Proof.
  split; [reflexivity |]. apply (Encode_remainder_2_collision (lit "fo")). reflexivity.
Defined.

(** ** Decode: which characters count *)

Lemma find_by_code (c : ascii) : Base32.Base32Chars_find c = index_by_code c.
Proof.
  destruct c as [b0 b1 b2 b3 b4 b5 b6 b7].
  destruct b0, b1, b2, b3, b4, b5, b6, b7; vm_compute; reflexivity.
Qed.

(** X2.  The characters that [Decode] takes as symbols are exactly the
    upper-case letters [A-Z] (indices 0 to 25) and the digits [2-7]
    (indices 26 to 31), by character code; every other character, a
    lower-case letter or the padding character among them, is passed over. *)
Theorem Decode_symbols_by_code (c : ascii) :
  Base32.Base32Chars_find c = index_by_code c /\
  ((32 <=? Base32.Base32Chars_find c) = false <->
   65 <= uchar c <= 90 \/ 50 <= uchar c <= 55) /\
  (forall st, ~ (65 <= uchar c <= 90 \/ 50 <= uchar c <= 55) ->
              Base32.Decode_step st c = Ok st).
Proof.
  pose proof (find_by_code c) as Hf. pose proof (uchar_range c) as Hr.
  assert (Hiff : (32 <=? Base32.Base32Chars_find c) = false <->
                 65 <= uchar c <= 90 \/ 50 <= uchar c <= 55).
  { rewrite Hf. unfold index_by_code, Base32.npos.
    destruct (Z.leb_spec 65 (uchar c)); destruct (Z.leb_spec (uchar c) 90);
      destruct (Z.leb_spec 50 (uchar c)); destruct (Z.leb_spec (uchar c) 55);
      cbn [andb]; rewrite Z.leb_gt; lia. }
  split; [exact Hf |]. split; [exact Hiff |].
  intros st Hnot. unfold Base32.Decode_step.
  destruct (32 <=? Base32.Base32Chars_find c) eqn:E; [reflexivity |].
  exfalso. apply Hnot. apply Hiff. reflexivity.
Qed.

Lemma valid_values_none (data : list ascii) :
  (forall c, In c data -> ~ In c Base32.Base32Chars) -> valid_values data = [].
Proof.
  induction data as [| c data IH]; intros H; [reflexivity |].
  unfold valid_values in *. cbn [map filter].
  pose proof (find_junk c (H c (or_introl eq_refl))) as Hj.
  destruct (Z.ltb_spec (Base32.Base32Chars_find c) 32) as [Hlt | _]; [lia |].
  apply IH. intros x Hx. apply H. right. exact Hx.
Qed.

(** X3.  A string without any character of the alphabet (the empty string,
    or padding and separators only) decodes to the empty byte sequence. *)
Theorem Decode_without_symbols (data : list ascii) :
  (forall c, In c data -> ~ In c Base32.Base32Chars) -> Base32.Decode data = Ok [].
Proof.
  intros H. rewrite Decode_outcome. cbv zeta. rewrite (valid_values_none data H).
  reflexivity.
Qed.

Lemma Decode_without_symbols_witness :
  Base32.Decode (lit "== ==") = Ok [].
Proof.
  apply (Decode_without_symbols (lit "== ==")).
  intros c Hc Hin. apply find_valid_iff in Hin.
  cbn [lit list_ascii_of_string In] in Hc.
  destruct Hc as [<- | [<- | [<- | [<- | [<- | []]]]]]; vm_compute in Hin; discriminate.
Defined.

Lemma valid_values_filter (data : list ascii) :
  valid_values (filter (fun c => Base32.Base32Chars_find c <? 32) data) = valid_values data.
Proof.
  induction data as [| c data IH]; [reflexivity |].
  unfold valid_values in *. cbn [filter map].
  destruct (Base32.Base32Chars_find c <? 32) eqn:E; cbn [map filter]; rewrite ?E, IH; reflexivity.
Qed.

Lemma valid_values_filter_length (data : list ascii) :
  length (valid_values data) =
    length (filter (fun c => Base32.Base32Chars_find c <? 32) data).
Proof.
  induction data as [| c data IH]; [reflexivity |].
  unfold valid_values in *. cbn [filter map].
  destruct (Base32.Base32Chars_find c <? 32); cbn [length]; rewrite IH; reflexivity.
Qed.

(** X4.  When the characters of the alphabet in a string number a multiple
    of 8, nothing else in the string matters: [Decode] returns what it
    returns on these characters alone, 5 bytes for every 8 of them. *)
Theorem Decode_whole_groups (data : list ascii) :
  let symbols := filter (fun c => Base32.Base32Chars_find c <? 32) data in
  (length symbols mod 8 = 0)%nat ->
  exists r, Base32.Decode data = Ok r /\ Base32.Decode symbols = Ok r /\
            length r = (5 * (length symbols / 8))%nat.
Proof.
  intros symbols Hmod.
  pose proof (valid_values_filter_length data) as Hk. fold symbols in Hk.
  assert (Hl : snd (snd (regroup 0 0 (valid_values data))) = 0).
  { rewrite Decode_left_by_count, Hk. nat_div_lia. }
  exists (map to_char (fst (regroup 0 0 (valid_values data)))).
  split; [| split].
  - rewrite Decode_outcome. cbv zeta. rewrite Hl. reflexivity.
  - rewrite Decode_outcome. cbv zeta. subst symbols.
    rewrite valid_values_filter, Hl. reflexivity.
  - rewrite length_map.
    pose proof (Decode_out_by_count data) as Hm. rewrite Hk in Hm. nat_div_lia.
Qed.

Lemma Decode_whole_groups_witness :
  let symbols := filter (fun c => Base32.Base32Chars_find c <? 32) (lit "JBSW Y3DP") in
  (length symbols mod 8 = 0)%nat /\
  exists r, Base32.Decode (lit "JBSW Y3DP") = Ok r /\ Base32.Decode symbols = Ok r /\
            length r = (5 * (length symbols / 8))%nat.
Proof.
  split; [reflexivity |].
  apply (Decode_whole_groups (lit "JBSW Y3DP")). reflexivity.
Defined.

(** ** Encode after Decode *)

Lemma regroup_values_block (v0 v1 v2 v3 v4 v5 v6 v7 : Z) (vs : list Z) :
  is_value v0 -> is_value v1 -> is_value v2 -> is_value v3 ->
  is_value v4 -> is_value v5 -> is_value v6 -> is_value v7 ->
  regroup 0 0 (v0 :: v1 :: v2 :: v3 :: v4 :: v5 :: v6 :: v7 :: vs) =
    (bytes_of_values v0 v1 v2 v3 v4 v5 v6 v7 ++ fst (regroup 0 0 vs), snd (regroup 0 0 vs)).
Proof.
  unfold is_value. intros H0 H1 H2 H3 H4 H5 H6 H7.
  rewrite regroup_cons_lt by lia. change (0 + 5) with 5.
  rewrite regroup_cons_ge by lia. change (5 + 5 - 8) with 2.
  rewrite regroup_cons_lt by lia. change (2 + 5) with 7.
  rewrite regroup_cons_ge by lia. change (7 + 5 - 8) with 4.
  rewrite regroup_cons_ge by lia. change (4 + 5 - 8) with 1.
  rewrite regroup_cons_lt by lia. change (1 + 5) with 6.
  rewrite regroup_cons_ge by lia. change (6 + 5 - 8) with 3.
  rewrite regroup_cons_ge by lia. change (3 + 5 - 8) with 0.
  change (2 ^ 0) with 1. rewrite Z.mod_1_r.
  destruct (regroup 0 0 vs) as [out fin]. cbn [fst snd].
  unfold bytes_of_values. cbn [app]. f_equal.
  f_equal; [div_mod_lia |]. f_equal; [div_mod_lia |]. f_equal; [div_mod_lia |].
  f_equal; [div_mod_lia |]. f_equal. div_mod_lia.
Qed.

Lemma block_values_of_bytes (v0 v1 v2 v3 v4 v5 v6 v7 : Z) :
  is_value v0 -> is_value v1 -> is_value v2 -> is_value v3 ->
  is_value v4 -> is_value v5 -> is_value v6 -> is_value v7 ->
  Forall is_byte (bytes_of_values v0 v1 v2 v3 v4 v5 v6 v7) /\
  block_values (v0 * 8 + v1 / 4) ((v1 mod 4) * 64 + v2 * 2 + v3 / 16)
    ((v3 mod 16) * 16 + v4 / 2) ((v4 mod 2) * 128 + v5 * 4 + v6 / 8) ((v6 mod 8) * 32 + v7) =
    [v0; v1; v2; v3; v4; v5; v6; v7].
Proof.
  unfold is_value, is_byte, bytes_of_values, block_values.
  intros H0 H1 H2 H3 H4 H5 H6 H7. split.
  - repeat constructor; div_mod_lia.
  - f_equal; [div_mod_lia |]. f_equal; [div_mod_lia |]. f_equal; [div_mod_lia |].
    f_equal; [div_mod_lia |]. f_equal; [div_mod_lia |]. f_equal; [div_mod_lia |].
    f_equal; [div_mod_lia |]. f_equal. div_mod_lia.
Qed.

(** Whole groups of 8 values regroup to bytes whose symbols they are. *)
Lemma regroup_whole_groups (k : nat) (vals : list Z) :
  length vals = (8 * k)%nat -> Forall is_value vals ->
  exists bytes, regroup 0 0 vals = (bytes, (0, 0)) /\ length bytes = (5 * k)%nat /\
                Forall is_byte bytes /\ symbols_of bytes k = vals.
Proof.
  revert vals. induction k as [| k IH]; intros vals Hlen Hvals.
  - destruct vals; [| discriminate]. exists []. repeat split; constructor.
  - destruct vals as [| v0 [| v1 [| v2 [| v3 [| v4 [| v5 [| v6 [| v7 vals]]]]]]]];
      try (cbn [length] in Hlen; lia).
    repeat match goal with
           | H : Forall _ (_ :: _) |- _ =>
               apply Forall_cons_iff in H; destruct H as [? H]
           end.
    destruct (IH vals ltac:(cbn [length] in Hlen; lia) Hvals) as (bytes & Hreg & Hlb & Hb & Hsym).
    destruct (block_values_of_bytes v0 v1 v2 v3 v4 v5 v6 v7) as [Hbb Hbv]; try assumption.
    exists (bytes_of_values v0 v1 v2 v3 v4 v5 v6 v7 ++ bytes).
    split; [| split; [| split]].
    + rewrite regroup_values_block by assumption. rewrite Hreg. reflexivity.
    + rewrite length_app, Hlb. unfold bytes_of_values. cbn [length]. lia.
    + apply Forall_app. split; assumption.
    + unfold bytes_of_values. cbn [app symbols_of nth skipn].
      rewrite Hbv, Hsym. reflexivity.
Qed.

Lemma at_find (c : ascii) :
  In c Base32.Base32Chars -> Base32.Base32Chars_at (Base32.Base32Chars_find c) = c.
Proof.
  intros Hin. cbv [Base32.Base32Chars list_ascii_of_string] in Hin.
  repeat (destruct Hin as [<- | Hin]; [reflexivity |]). contradiction.
Qed.

Lemma valid_values_all (s : list ascii) :
  Forall (fun c => In c Base32.Base32Chars) s ->
  valid_values s = map Base32.Base32Chars_find s /\
  map Base32.Base32Chars_at (map Base32.Base32Chars_find s) = s.
Proof.
  intros H. induction H as [| c s Hc Hs [IH1 IH2]]; [split; reflexivity |].
  unfold valid_values in *. cbn [map filter].
  pose proof (proj2 (find_valid_iff c) Hc) as Hv. rewrite Hv, IH1, IH2, at_find by exact Hc.
  split; reflexivity.
Qed.

Lemma uchar_of_to_char (z : Z) : is_byte z -> uchar (to_char z) = z.
Proof.
  unfold is_byte. intros H. unfold uchar, to_char.
  rewrite Z.mod_small by lia. rewrite N_ascii_embedding by lia. lia.
Qed.

Lemma map_uchar_to_char (l : list Z) : Forall is_byte l -> map uchar (map to_char l) = l.
Proof.
  intros H. induction H as [| z l Hz Hl IH]; [reflexivity |].
  cbn [map]. rewrite uchar_of_to_char, IH by exact Hz. reflexivity.
Qed.

(** X5.  On a string of characters of the alphabet whose length is a
    multiple of 8, [Decode] returns 5 bytes for every 8 characters and
    [Encode] of these bytes gives the string back. *)
Theorem Encode_Decode_roundtrip (s : list ascii) :
  Forall (fun c => In c Base32.Base32Chars) s ->
  (length s mod 8 = 0)%nat ->
  exists bytes, Base32.Decode s = Ok bytes /\
                length bytes = (5 * (length s / 8))%nat /\
                Base32.Encode bytes 0 = s.
Proof.
  intros Hs Hmod. destruct (valid_values_all s Hs) as [Hvv Hback].
  set (k := (length s / 8)%nat).
  assert (Hlen : length (valid_values s) = (8 * k)%nat).
  { rewrite Hvv, length_map. subst k. nat_div_lia. }
  destruct (regroup_whole_groups k (valid_values s) Hlen (valid_values_range s))
    as (bytes & Hreg & Hlb & Hb & Hsym).
  exists (map to_char bytes). split; [| split].
  - rewrite Decode_outcome. cbv zeta. rewrite Hreg. reflexivity.
  - rewrite length_map. exact Hlb.
  - rewrite Encode_aligned by (rewrite length_map, Hlb; nat_div_lia).
    rewrite map_uchar_to_char by exact Hb. rewrite length_map, Hlb.
    replace (5 * k / 5)%nat with k by nat_div_lia.
    rewrite Hsym, Hvv. exact Hback.
Qed.

Lemma Encode_Decode_roundtrip_witness :
  exists bytes, Base32.Decode (lit "GEZDGNBVGY3TQOJQ") = Ok bytes /\
                length bytes = 10%nat /\
                Base32.Encode bytes 0 = lit "GEZDGNBVGY3TQOJQ".
Proof.
  apply (Encode_Decode_roundtrip (lit "GEZDGNBVGY3TQOJQ")); [| reflexivity].
  apply Forall_forall. intros c Hc. apply find_valid_iff.
  cbn [lit list_ascii_of_string In] in Hc.
  repeat (destruct Hc as [<- | Hc]; [reflexivity |]). contradiction.
Defined.

(** ** Generate and Validate on secrets with separators, and on encoded secrets *)

Lemma Generate_junk_inserted (self : TOTP.t) (s s' key : list ascii) (time : Z) :
  junk_inserted s s' -> Base32.Decode s = Ok key ->
  TOTP.Generate self s' time = TOTP.Generate self s time.
Proof.
  intros Hj Hs. unfold TOTP.Generate.
  destruct (TOTP.Hash self) as [hp |]; [| reflexivity].
  rewrite (Decode_junk_inserted s s' key Hj Hs), Hs. reflexivity.
Qed.

Lemma Validate_loop_ext (self : TOTP.t) (s s' code : list ascii) (n : nat) (time : Z) :
  (forall t, TOTP.Generate self s' t = TOTP.Generate self s t) ->
  TOTP.Validate_loop self s' code time n = TOTP.Validate_loop self s code time n.
Proof.
  intros H. revert time. induction n as [| n IH]; intros time; [reflexivity |].
  cbn [TOTP.Validate_loop]. rewrite H.
  destruct (TOTP.Generate self s time) as [g | f]; cbn [bind]; [| reflexivity].
  destruct (TOTP.str_eqb g code); [reflexivity | apply IH].
Qed.

(** X12.  Characters outside the alphabet (spaces, dashes, lower-case letters)
    added to a secret that [Decode] decodes change neither the codes that
    [Generate] returns nor the answers of [Validate]. *)
Theorem secret_separators_ignored (self : TOTP.t) (now : Z) (s s' key : list ascii) :
  junk_inserted s s' -> Base32.Decode s = Ok key ->
  (forall time, TOTP.Generate self s' time = TOTP.Generate self s time) /\
  (forall code, TOTP.Validate self now s' code = TOTP.Validate self now s code).
Proof.
  intros Hj Hs.
  assert (Hg : forall t, TOTP.Generate self s' t = TOTP.Generate self s t).
  { intros t. apply (Generate_junk_inserted self s s' key); assumption. }
  split; [exact Hg |].
  intros code. unfold TOTP.Validate.
  destruct (TOTP.int_result (30 * TOTP.Window self)) as [w1 | f]; cbn [bind]; [| reflexivity].
  destruct (TOTP.long_result (now - w1)) as [d1 | f]; cbn [bind]; [| reflexivity].
  destruct (TOTP.long_result (now + w1)) as [d2 | f]; cbn [bind]; [| reflexivity].
  apply Validate_loop_ext. exact Hg.
Qed.

Lemma secret_separators_ignored_witness :
  junk_inserted (lit "JBSWY3DP") (lit "JB-SWY3!DP") /\
  TOTP.Generate (toy 1) (lit "JB-SWY3!DP") 5 = TOTP.Generate (toy 1) (lit "JBSWY3DP") 5.
Proof.
  split; [exact junk_JBSWY3DP |].
  exact (proj1 (secret_separators_ignored (toy 1) 200 (lit "JBSWY3DP") (lit "JB-SWY3!DP")
                  (lit "Hello") junk_JBSWY3DP eq_refl) 5).
Defined.

Lemma Decode_Encode_whole (bytes : list ascii) :
  (length bytes mod 5 = 0)%nat -> Base32.Decode (Base32.Encode bytes 0) = Ok bytes.
Proof.
  intros Hmod. rewrite Decode_outcome. cbv zeta.
  assert (Hk : length (map uchar bytes) = (5 * (length bytes / 5))%nat).
  { rewrite length_map. nat_div_lia. }
  assert (Hbytes : Forall is_byte (map uchar bytes)).
  { apply Forall_forall. intros x Hx. apply in_map_iff in Hx.
    destruct Hx as (c & <- & _). apply uchar_range. }
  rewrite Encode_aligned by exact Hmod.
  rewrite valid_values_at by (apply symbols_of_range; exact Hbytes).
  rewrite (regroup_symbols _ _ Hk Hbytes). cbn [fst snd Z.eqb].
  rewrite map_to_char_uchar. reflexivity.
Qed.

(** X11.  The string that [Encode] makes of a whole number of 5-byte blocks is
    a secret on which [Generate] is defined with every sized provider: the
    key of the HMAC is the original byte sequence and the result is the
    6-digit code of the digest. *)
Theorem Generate_with_encoded_secret
  (hp : TOTP.HashProvider) (w : Z) (bytes : list ascii) (time : Z) :
  digest_sized hp -> (length bytes mod 5 = 0)%nat ->
  TOTP.Generate (TOTP.mkTOTP (Some hp) w) (Base32.Encode bytes 0) time =
    Ok (six_digits (dynamic_truncation
          (map uchar (TOTP.hmac hp bytes (map to_char (be8 (u64 time))))))).
Proof.
  intros [Hsize Hlen] Hmod. unfold TOTP.Generate. cbn [TOTP.Hash].
  rewrite Decode_Encode_whole by exact Hmod. cbn [bind].
  rewrite make_challenge_be8.
  apply (Generate_code_truncation hp _ Hsize (Hlen _ _)).
Qed.

Lemma Generate_with_encoded_secret_witness :
  digest_sized toy_provider /\ (length (lit "Hello") mod 5 = 0)%nat /\
  TOTP.Generate (toy 1) (Base32.Encode (lit "Hello") 0) 5 = Ok (lit "886080").
Proof.
  split; [exact toy_digest_sized |]. split; [reflexivity |].
  exact (Generate_with_encoded_secret toy_provider 1 (lit "Hello") 5 toy_digest_sized eq_refl).
Defined.

(** X13.  With a secret that [Encode] made of whole blocks, a sized provider
    and a window of at least one step that is in range, [Validate]
    accepts the code of every counter from [floor(now / 30) - w] to
    [floor(now / 30) + w - 1]. *)
Theorem Validate_accepts_window_codes
  (hp : TOTP.HashProvider) (w now : Z) (bytes : list ascii) (c : Z) :
  digest_sized hp -> (length bytes mod 5 = 0)%nat -> window_in_range now w ->
  now / 30 - w <= c < now / 30 + w ->
  let self := TOTP.mkTOTP (Some hp) w in
  let secret := Base32.Encode bytes 0 in
  exists code, TOTP.Generate self secret c = Ok code /\
               TOTP.Validate self now secret code = Ok true.
Proof.
  intros Hsized Hmod Hrange Hc self secret.
  assert (Hdef : forall t, exists g, TOTP.Generate self secret t = Ok g).
  { apply (Generate_defined hp w secret bytes Hsized). apply Decode_Encode_whole. exact Hmod. }
  destruct (Hdef c) as [code Hcode]. exists code. split; [exact Hcode |].
  apply (Validate_true_iff self now secret code c); try assumption.
  cbn [TOTP.Window self]. Z.div_mod_to_equations. lia.
Qed.

Lemma Validate_accepts_window_codes_witness :
  exists code, TOTP.Generate (toy 1) (Base32.Encode (lit "Hello") 0) 6 = Ok code /\
               TOTP.Validate (toy 1) 200 (Base32.Encode (lit "Hello") 0) code = Ok true.
Proof.
  apply (Validate_accepts_window_codes toy_provider 1 200 (lit "Hello") 6).
  - exact toy_digest_sized.
  - reflexivity.
  - vm_compute. repeat split; congruence.
  - vm_compute. split; congruence.
Defined.

(** ** Validate: the edges of the window *)

(** X14.  For a window in range at the time [now] (30 times the window fits
    [int]; [now - 30 w] and [now + 30 w] are not negative and fit
    [time_t]), a window of 0 steps, or a negative one, makes [Validate]
    reject every code, the code of the current counter included;
    [Generate] is not called, so this holds for every secret and without
    a provider. *)
Theorem Validate_empty_window (self : TOTP.t) (now : Z) (secret code : list ascii) :
  window_in_range now (TOTP.Window self) -> TOTP.Window self <= 0 ->
  TOTP.Validate self now secret code = Ok false.
Proof.
  intros Hrange Hw. rewrite Validate_range by exact Hrange.
  replace (Z.to_nat ((now + 30 * TOTP.Window self) / 30 - (now - 30 * TOTP.Window self) / 30))
    with 0%nat; [reflexivity |].
  Z.div_mod_to_equations. lia.
Qed.

Lemma Validate_empty_window_witness :
  window_in_range 200 0 /\
  TOTP.Validate (toy 0) 200 (lit "JBSWY3DP") (lit "663296") = Ok false.
Proof.
  assert (Hrange : window_in_range 200 (TOTP.Window (toy 0))).
  { vm_compute. repeat split; congruence. }
  split; [exact Hrange |].
  apply (Validate_empty_window (toy 0) 200 (lit "JBSWY3DP") (lit "663296") Hrange).
  vm_compute. congruence.
Defined.

(** X15.  Without a provider [Validate] returns true exactly for the empty
    candidate code, as soon as the window has one step. *)
Theorem Validate_without_provider (w now : Z) (secret code : list ascii) :
  window_in_range now w ->
  exists b, TOTP.Validate (TOTP.mkTOTP None w) now secret code = Ok b /\
            (b = true <-> code = [] /\ 1 <= w).
Proof.
  intros Hrange. exact (Validate_unloaded w now secret code Hrange).
Qed.

Lemma Validate_without_provider_witness :
  window_in_range 200 5 /\
  exists b, TOTP.Validate (TOTP.mkTOTP None 5) 200 (lit "JBSWY3DP") (lit "123456") = Ok b /\
            (b = true <-> lit "123456" = [] /\ 1 <= 5).
Proof.
  assert (Hrange : window_in_range 200 5) by (vm_compute; repeat split; congruence).
  split; [exact Hrange |].
  exact (Validate_without_provider 5 200 (lit "JBSWY3DP") (lit "123456") Hrange).
Defined.

(** X16.  A window that reaches a whole step or more before the epoch makes
    [Validate] reject every code: the negative start counter wraps to
    the top of [unsigned long], above the end counter, and the loop does
    not run. *)
Theorem Validate_window_before_epoch (self : TOTP.t) (now : Z) (secret code : list ascii) :
  let w := TOTP.Window self in
  0 <= now -> INT_MIN <= 30 * w <= INT_MAX -> now + 30 * w <= LONG_MAX ->
  now - 30 * w <= - 30 ->
  TOTP.Validate self now secret code = Ok false.
Proof.
  intros w Hnow Hint Hhigh Hlow. unfold TOTP.Validate. fold w.
  unfold INT_MIN, INT_MAX, LONG_MAX in *.
  assert (Hi : TOTP.int_result (30 * w) = Ok (30 * w)).
  { unfold TOTP.int_result, INT_MIN, INT_MAX.
    destruct (Z.leb_spec (- 2 ^ 31) (30 * w)); [| lia].
    destruct (Z.leb_spec (30 * w) (2 ^ 31 - 1)); [| lia]. reflexivity. }
  assert (Hl : forall z, - 2 ^ 63 <= z <= 2 ^ 63 - 1 -> TOTP.long_result z = Ok z).
  { intros z Hz. unfold TOTP.long_result, LONG_MIN, LONG_MAX.
    destruct (Z.leb_spec (- 2 ^ 63) z); [| lia].
    destruct (Z.leb_spec z (2 ^ 63 - 1)); [| lia]. reflexivity. }
  rewrite Hi. cbn [bind]. rewrite !Hl by lia. cbn [bind].
  rewrite (Z.quot_div_nonneg (now + 30 * w)) by lia.
  assert (Hq : - 2 ^ 63 <= Z.quot (now - 30 * w) 30 <= - 1).
  { pose proof (Z.quot_opp_l (30 * w - now) 30 ltac:(lia)) as Ho.
    replace (- (30 * w - now)) with (now - 30 * w) in Ho by lia. rewrite Ho.
    rewrite Z.quot_div_nonneg by lia. Z.div_mod_to_equations. lia. }
  replace (Z.to_nat (u64 ((now + 30 * w) / 30) - u64 (Z.quot (now - 30 * w) 30))) with 0%nat;
    [reflexivity |].
  unfold u64. generalize dependent (Z.quot (now - 30 * w) 30). intros q Hq.
  Z.div_mod_to_equations. lia.
Qed.

Lemma Validate_window_before_epoch_witness :
  TOTP.Validate (toy 10) 200 (lit "JBSWY3DP") (lit "663296") = Ok false.
Proof.
  apply (Validate_window_before_epoch (toy 10) 200 (lit "JBSWY3DP") (lit "663296"));
    vm_compute; try split; congruence.
Defined.

(** ** Generate: digests of any size *)

Lemma str_get_bad (s : list ascii) (i : Z) :
  Z.of_nat (length s) < i -> str_get s i = Undefined (OutOfRange i (Z.of_nat (length s))).
Proof.
  intros H. unfold str_get.
  destruct (Z.leb_spec i (Z.of_nat (length s))); [lia |].
  rewrite andb_false_r. reflexivity.
Qed.

Lemma truncate_loop_reads (hash : list ascii) (offset : Z) (n : nat) (i acc : Z) :
  0 <= offset + i ->
  let len := Z.of_nat (length hash) in
  (offset + i + Z.of_nat n - 1 <= len ->
   exists v, TOTP.truncate_loop hash offset i n acc = Ok v) /\
  (len < offset + i + Z.of_nat n - 1 -> (n = 0%nat -> offset + i - 1 <= len) ->
   exists j, TOTP.truncate_loop hash offset i n acc = Undefined (OutOfRange j len) /\
             len < j <= offset + i + Z.of_nat n - 1).
Proof.
  intros H0 len. revert i acc H0. induction n as [| n IH]; intros i acc H0.
  - split.
    + intros _. eexists. reflexivity.
    + intros Hbad Hprev. specialize (Hprev eq_refl). lia.
  - cbn [TOTP.truncate_loop].
    destruct (Z.le_gt_cases (offset + i) len) as [Hin | Hout].
    + rewrite str_get_ok by (fold len; lia). cbn [bind].
      destruct (IH (i + 1) (u32 (Z.lor (u32 (Z.shiftl acc 8))
                                   (uchar (nth (Z.to_nat (offset + i)) hash zero))))
                  ltac:(lia)) as [IHok IHbad].
      split.
      * intros Hall. apply IHok. lia.
      * intros Hbad _. destruct (IHbad ltac:(lia) ltac:(lia)) as (j & Hj & Hrange).
        exists j. split; [exact Hj | lia].
    + rewrite str_get_bad by (fold len; lia). cbn [bind]. split.
      * intros Hall. lia.
      * intros _ _. exists (offset + i). split; [reflexivity | lia].
Qed.

(** X10.  [Generate] reads the four bytes at [offset .. offset + 3] whatever
    the size of the digest.  For a digest of [out_size >= 1] bytes it
    returns a 6-character code when [offset + 3] is at most the size (the
    terminating null character of the string stands for a byte at the
    size itself), and reads outside of the digest otherwise: with 16-byte
    digests, whenever the last byte has a low nibble of 14 or 15. *)
Theorem Generate_code_digest_bounds (hp : TOTP.HashProvider) (hash : list ascii) :
  1 <= TOTP.out_size hp < 2 ^ 32 ->
  Z.of_nat (length hash) = TOTP.out_size hp ->
  let len := Z.of_nat (length hash) in
  let offset := Z.land (last (map uchar hash) 0) 15 in
  (offset + 3 <= len ->
   exists code, TOTP.Generate_code hp hash = Ok code /\ length code = 6%nat) /\
  (len < offset + 3 ->
   exists i, TOTP.Generate_code hp hash = Undefined (OutOfRange i len) /\
             len < i <= offset + 3).
Proof.
  intros Hsize Hlen len offset.
  assert (Hlast : last (map uchar hash) 0 =
                  uchar (nth (Z.to_nat (u32 (TOTP.out_size hp - 1))) hash zero)).
  { rewrite last_nth, length_map. change 0 with (uchar zero). rewrite map_nth.
    unfold u32. rewrite Z.mod_small by lia.
    replace (Z.to_nat (TOTP.out_size hp - 1)) with (length hash - 1)%nat by lia.
    reflexivity. }
  assert (Hoff : 0 <= offset < 16).
  { subst offset. rewrite (land_mask _ 4 15) by (reflexivity || lia). div_mod_lia. }
  unfold TOTP.Generate_code.
  rewrite str_get_ok by (unfold u32; rewrite Z.mod_small by lia; lia).
  cbn [bind]. rewrite <- Hlast. fold offset.
  destruct (truncate_loop_reads hash offset 4 0 0 ltac:(lia)) as [Hok Hbad].
  fold len in Hok, Hbad. split.
  - intros Hin. destruct (Hok ltac:(lia)) as [v Hv]. rewrite Hv. cbn [bind].
    eexists. split.
    + apply ConvToStr_padded. Z.div_mod_to_equations. lia.
    + apply six_digits_length.
  - intros Hout. destruct (Hbad ltac:(lia) ltac:(discriminate)) as (j & Hj & Hrange).
    rewrite Hj. cbn [bind]. exists j. split; [reflexivity | lia].
Qed.

Lemma Generate_code_digest_bounds_witness :
  let hp := TOTP.mkHashProvider (fun _ _ => repeat "255"%char 16) 16 in
  exists i, TOTP.Generate_code hp (repeat "255"%char 16) = Undefined (OutOfRange i 16) /\
            16 < i <= 18.
Proof.
  intros hp.
  refine (proj2 (Generate_code_digest_bounds hp (repeat "255"%char 16) _ eq_refl) _).
  - vm_compute. split; congruence.
  - vm_compute. reflexivity.
Defined.

(** ** OnPreCommand *)

Lemma rfind_None (c : ascii) (s : list ascii) :
  ModuleTOTP.rfind c s = None <-> ~ In c s.
Proof.
  induction s as [| x s IH]; cbn [ModuleTOTP.rfind In].
  - split; [intros _ [] | reflexivity].
  - destruct (ModuleTOTP.rfind c s) as [i |].
    + split; [discriminate |]. intros H. exfalso. apply H. right.
      destruct (in_dec ascii_dec c s) as [Hin | Hnin]; [exact Hin |].
      apply IH in Hnin. discriminate.
    + destruct (Ascii.eqb_spec x c) as [-> | Hne].
      * split; [discriminate |]. intros H. exfalso. apply H. left. reflexivity.
      * split; [| reflexivity]. intros _ [Heq | Hin]; [congruence |].
        apply (proj1 IH eq_refl). exact Hin.
Qed.

Lemma rfind_last (c : ascii) (a b : list ascii) :
  ~ In c b -> ModuleTOTP.rfind c (a ++ c :: b) = Some (length a).
Proof.
  intros Hb. induction a as [| x a IH].
  - cbn [app ModuleTOTP.rfind length]. rewrite (proj2 (rfind_None c b) Hb).
    rewrite Ascii.eqb_refl. reflexivity.
  - cbn [app ModuleTOTP.rfind length]. rewrite IH. reflexivity.
Qed.

Lemma rfind_Some (c : ascii) (s : list ascii) (i : nat) :
  ModuleTOTP.rfind c s = Some i ->
  s = firstn i s ++ c :: skipn (i + 1) s /\ ~ In c (skipn (i + 1) s).
Proof.
  revert i. induction s as [| x s IH]; intros i; cbn [ModuleTOTP.rfind]; [discriminate |].
  destruct (ModuleTOTP.rfind c s) as [j |] eqn:E.
  - intros H. injection H as <-. destruct (IH j eq_refl) as [Hs Hn].
    cbn [firstn Nat.add skipn app]. split; [f_equal; exact Hs | exact Hn].
  - destruct (Ascii.eqb_spec x c) as [-> | Hne]; [| discriminate].
    intros H. injection H as <-. cbn [firstn Nat.add skipn app].
    split; [reflexivity |]. apply rfind_None. exact E.
Qed.

Lemma str_eqb_refl (a : list ascii) : TOTP.str_eqb a a = true.
Proof. apply str_eqb_eq. reflexivity. Qed.

(** X17.  [OnPreCommand] leaves alone every command but a validated [OPER]
    with two parameters for an account that has a [totpsecret]: it
    returns [MOD_RES_PASSTHRU] and changes neither the parameters nor
    the user. *)
Theorem OnPreCommand_passes_other_commands
  (self : ModuleTOTP.t) (now : Z) (command : list ascii)
  (parameters : list (list ascii)) (user : ModuleTOTP.LocalUser) (validated : bool) :
  validated = false \/ command <> lit "OPER" \/ (length parameters <= 1)%nat \/
  ModuleTOTP.oper_blocks self (nth 0 parameters []) = None \/
  ModuleTOTP.oper_blocks self (nth 0 parameters []) = Some (ModuleTOTP.mkOperInfo None) ->
  ModuleTOTP.OnPreCommand self now command parameters user validated =
    Ok (ModuleTOTP.MOD_RES_PASSTHRU, parameters, user).
Proof.
  intros H. unfold ModuleTOTP.OnPreCommand.
  destruct validated; cbn [andb]; [| reflexivity].
  destruct (TOTP.str_eqb command (lit "OPER")) eqn:Ecmd; cbn [andb]; [| reflexivity].
  destruct (Nat.ltb_spec 1 (length parameters)) as [Hlen | Hlen]; [| reflexivity].
  apply str_eqb_eq in Ecmd.
  destruct H as [H | [H | [H | [H | H]]]]; try discriminate; try contradiction; try lia;
    rewrite H; reflexivity.
Qed.

Lemma OnPreCommand_passes_other_commands_witness :
  ModuleTOTP.OnPreCommand (toy_module (toy 1) (lit "JBSWY3DP")) 200 (lit "JOIN")
    [lit "#chan"; lit "key 123456"] (toy_user 0) true =
  Ok (ModuleTOTP.MOD_RES_PASSTHRU, [lit "#chan"; lit "key 123456"], toy_user 0).
Proof.
  apply OnPreCommand_passes_other_commands. right. left. discriminate.
Defined.

Lemma OnPreCommand_with_token
  (self : ModuleTOTP.t) (now : Z) (name password otp secret : list ascii)
  (rest : list (list ascii)) (user : ModuleTOTP.LocalUser) (valid : bool) :
  ModuleTOTP.oper_blocks self name = Some (ModuleTOTP.mkOperInfo (Some secret)) ->
  ~ In " "%char otp ->
  TOTP.Validate (ModuleTOTP.totp self) now secret otp = Ok valid ->
  ModuleTOTP.OnPreCommand self now (lit "OPER")
    (name :: (password ++ " "%char :: otp) :: rest) user true =
    Ok (if valid then (ModuleTOTP.MOD_RES_PASSTHRU, name :: password :: rest, user)
        else (ModuleTOTP.MOD_RES_DENY, name :: password :: rest, penalised user)).
Proof.
  intros Hblock Hotp Hvalid. unfold ModuleTOTP.OnPreCommand.
  cbn [andb length nth]. rewrite str_eqb_refl. cbn [andb Nat.ltb Nat.leb].
  rewrite Hblock. cbn [ModuleTOTP.totpsecret].
  rewrite rfind_last by exact Hotp.
  assert (Hskip : skipn (length password + 1) (password ++ " "%char :: otp) = otp).
  { rewrite skipn_app, skipn_all2 by lia.
    replace (length password + 1 - length password)%nat with 1%nat by lia. reflexivity. }
  assert (Hfirst : firstn (length password) (password ++ " "%char :: otp) = password).
  { rewrite firstn_app, Nat.sub_diag, firstn_all. cbn [firstn]. apply app_nil_r. }
  rewrite Hskip, Hfirst, Hvalid. cbn [bind].
  unfold ModuleTOTP.set_parameter. cbn [length Nat.ltb Nat.leb firstn skipn app].
  destruct valid; reflexivity.
Qed.

(** X18.  For a validated [OPER] of an account with a [totpsecret], the token
    is the text after the last space of the second parameter: it is
    cut off together with that space before the command goes on, and the
    answer of [Validate] on it decides between [MOD_RES_PASSTHRU] with the
    user untouched and [MOD_RES_DENY] with numeric 491 and a flood penalty
    of 10000. *)
Theorem OnPreCommand_splits_token
  (self : ModuleTOTP.t) (now : Z) (name password otp secret : list ascii)
  (rest : list (list ascii)) (user : ModuleTOTP.LocalUser) (valid : bool) :
  ModuleTOTP.oper_blocks self name = Some (ModuleTOTP.mkOperInfo (Some secret)) ->
  ~ In " "%char otp ->
  TOTP.Validate (ModuleTOTP.totp self) now secret otp = Ok valid ->
  ModuleTOTP.OnPreCommand self now (lit "OPER")
    (name :: (password ++ " "%char :: otp) :: rest) user true =
    Ok (if valid then (ModuleTOTP.MOD_RES_PASSTHRU, name :: password :: rest, user)
        else (ModuleTOTP.MOD_RES_DENY, name :: password :: rest, penalised user)).
Proof.
  intros Hblock Hotp Hvalid.
  apply (OnPreCommand_with_token self now name password otp secret); assumption.
Qed.

Lemma OnPreCommand_splits_token_witness :
  ModuleTOTP.OnPreCommand (toy_module (toy 1) (lit "JBSWY3DP")) 200 (lit "OPER")
    [lit "root"; lit "my pass" ++ " "%char :: lit "663296"] (toy_user 0) true =
  Ok (ModuleTOTP.MOD_RES_PASSTHRU, [lit "root"; lit "my pass"], toy_user 0).
Proof.
  refine (OnPreCommand_splits_token (toy_module (toy 1) (lit "JBSWY3DP")) 200 (lit "root")
            (lit "my pass") (lit "663296") (lit "JBSWY3DP") [] (toy_user 0) true eq_refl _ eq_refl).
  intros Hin. cbn [lit list_ascii_of_string In] in Hin.
  repeat (destruct Hin as [Hin | Hin]; [discriminate |]). contradiction.
Defined.

(** X19.  A password without any space carries no token: [OnPreCommand]
    denies the [OPER] with numeric 491, leaves the parameters and the
    flood penalty as they are and does not call [Validate]. *)
Theorem OnPreCommand_missing_token
  (self : ModuleTOTP.t) (now : Z) (name password secret : list ascii)
  (rest : list (list ascii)) (user : ModuleTOTP.LocalUser) :
  ModuleTOTP.oper_blocks self name = Some (ModuleTOTP.mkOperInfo (Some secret)) ->
  ~ In " "%char password ->
  ModuleTOTP.OnPreCommand self now (lit "OPER") (name :: password :: rest) user true =
    Ok (ModuleTOTP.MOD_RES_DENY, name :: password :: rest,
        ModuleTOTP.mkLocalUser (ModuleTOTP.nick user) (ModuleTOTP.CommandFloodPenalty user)
          (ModuleTOTP.numerics user ++
             [(491, ModuleTOTP.nick user ++ lit " :This oper login requires a TOTP token.")])).
Proof.
  intros Hblock Hpw. unfold ModuleTOTP.OnPreCommand.
  cbn [andb length nth]. rewrite str_eqb_refl. cbn [andb Nat.ltb Nat.leb].
  rewrite Hblock. cbn [ModuleTOTP.totpsecret].
  rewrite (proj2 (rfind_None _ _) Hpw). reflexivity.
Qed.

Lemma OnPreCommand_missing_token_witness :
  ModuleTOTP.OnPreCommand (toy_module (toy 1) (lit "J")) 200 (lit "OPER")
    [lit "root"; lit "pass"] (toy_user 7) true =
  Ok (ModuleTOTP.MOD_RES_DENY, [lit "root"; lit "pass"],
      ModuleTOTP.mkLocalUser (lit "nick") 7
        [(491, lit "nick :This oper login requires a TOTP token.")]).
Proof.
  refine (OnPreCommand_missing_token (toy_module (toy 1) (lit "J")) 200 (lit "root")
            (lit "pass") (lit "J") [] (toy_user 7) eq_refl _).
  intros Hin. cbn [lit list_ascii_of_string In] in Hin.
  repeat (destruct Hin as [Hin | Hin]; [discriminate |]). contradiction.
Defined.

Lemma digits_without_space (code : list ascii) :
  Forall is_digit code -> ~ In " "%char code.
Proof.
  intros H Hin. rewrite Forall_forall in H. specialize (H _ Hin).
  unfold is_digit in H. vm_compute in H. destruct H as [H _]. apply H. reflexivity.
Qed.

(** X20.  Without a provider, a validated [OPER] of an account with a
    [totpsecret] goes through exactly when the password ends in a
    space, that is with an empty token, whatever the secret is (the
    window being in range and of one step at least); any other token is
    denied with the penalty. *)
Theorem OnPreCommand_without_provider
  (w now : Z) (oper_blocks : list ascii -> option ModuleTOTP.OperInfo)
  (name password otp secret : list ascii)
  (rest : list (list ascii)) (user : ModuleTOTP.LocalUser) :
  oper_blocks name = Some (ModuleTOTP.mkOperInfo (Some secret)) ->
  window_in_range now w -> 1 <= w -> ~ In " "%char otp ->
  ModuleTOTP.OnPreCommand (ModuleTOTP.mkModule (TOTP.mkTOTP None w) oper_blocks) now (lit "OPER")
    (name :: (password ++ " "%char :: otp) :: rest) user true =
    Ok (match otp with
        | [] => (ModuleTOTP.MOD_RES_PASSTHRU, name :: password :: rest, user)
        | _ :: _ => (ModuleTOTP.MOD_RES_DENY, name :: password :: rest, penalised user)
        end).
Proof.
  intros Hblock Hrange Hw Hotp.
  destruct (Validate_unloaded w now secret otp Hrange) as (b & Hrun & Hb).
  rewrite (OnPreCommand_with_token (ModuleTOTP.mkModule (TOTP.mkTOTP None w) oper_blocks)
             now name password otp secret rest user b Hblock Hotp Hrun).
  destruct otp as [| c otp].
  - assert (b = true) as -> by (apply Hb; split; [reflexivity | exact Hw]). reflexivity.
  - destruct b; [| reflexivity]. destruct (proj1 Hb eq_refl) as [Hnil _]. discriminate.
Qed.

Lemma OnPreCommand_without_provider_witness :
  ModuleTOTP.OnPreCommand (toy_module (TOTP.mkTOTP None 5) (lit "JBSWY3DP")) 200 (lit "OPER")
    [lit "root"; lit "wrong "] (toy_user 0) true =
  Ok (ModuleTOTP.MOD_RES_PASSTHRU, [lit "root"; lit "wrong"], toy_user 0).
Proof.
  refine (OnPreCommand_without_provider 5 200
            (fun _ => Some (ModuleTOTP.mkOperInfo (Some (lit "JBSWY3DP"))))
            (lit "root") (lit "wrong") [] (lit "JBSWY3DP") [] (toy_user 0) eq_refl _ _ _).
  - vm_compute. repeat split; congruence.
  - lia.
  - intros [].
Defined.

(** X21.  With a sized provider, a window in range and a secret that
    [Encode] made of whole blocks, a validated [OPER] whose password ends
    in a space and the code of a counter of the window goes through, and
    the password goes on without the space and the code. *)
Theorem OnPreCommand_accepts_window_code
  (hp : TOTP.HashProvider) (w now : Z) (oper_blocks : list ascii -> option ModuleTOTP.OperInfo)
  (bytes name password : list ascii) (c : Z)
  (rest : list (list ascii)) (user : ModuleTOTP.LocalUser) :
  let self := TOTP.mkTOTP (Some hp) w in
  let secret := Base32.Encode bytes 0 in
  digest_sized hp -> (length bytes mod 5 = 0)%nat -> window_in_range now w ->
  now / 30 - w <= c < now / 30 + w ->
  oper_blocks name = Some (ModuleTOTP.mkOperInfo (Some secret)) ->
  exists code, TOTP.Generate self secret c = Ok code /\
    ModuleTOTP.OnPreCommand (ModuleTOTP.mkModule self oper_blocks) now (lit "OPER")
      (name :: (password ++ " "%char :: code) :: rest) user true =
      Ok (ModuleTOTP.MOD_RES_PASSTHRU, name :: password :: rest, user).
Proof.
  intros self secret Hsized Hmod Hrange Hc Hblock.
  pose proof (Decode_Encode_whole bytes Hmod) as Hkey. fold secret in Hkey.
  assert (Hdef : forall t, exists g, TOTP.Generate self secret t = Ok g).
  { apply (Generate_defined hp w secret bytes Hsized Hkey). }
  assert (Hcode : exists v, TOTP.Generate self secret c = Ok (six_digits v)).
  { unfold TOTP.Generate. cbn [TOTP.Hash self]. rewrite Hkey. cbn [bind].
    destruct Hsized as [Hsize Hlen]. eexists.
    apply (Generate_code_truncation hp _ Hsize (Hlen _ _)). }
  destruct Hcode as [v Hcode]. exists (six_digits v). split; [exact Hcode |].
  assert (Hvalid : TOTP.Validate self now secret (six_digits v) = Ok true).
  { apply (Validate_true_iff self now secret (six_digits v) c); try assumption.
    cbn [TOTP.Window self]. Z.div_mod_to_equations. lia. }
  rewrite (OnPreCommand_with_token (ModuleTOTP.mkModule self oper_blocks)
             now name password (six_digits v) secret rest user true
             Hblock (digits_without_space _ (six_digits_are_digits v)) Hvalid).
  reflexivity.
Qed.

Lemma OnPreCommand_accepts_window_code_witness :
  exists code, TOTP.Generate (toy 1) (Base32.Encode (lit "Hello") 0) 6 = Ok code /\
    ModuleTOTP.OnPreCommand (toy_module (toy 1) (Base32.Encode (lit "Hello") 0)) 200 (lit "OPER")
      (lit "root" :: (lit "pass" ++ " "%char :: code) :: []) (toy_user 0) true =
      Ok (ModuleTOTP.MOD_RES_PASSTHRU, lit "root" :: lit "pass" :: [], toy_user 0).
Proof.
  refine (OnPreCommand_accepts_window_code toy_provider 1 200
            (fun _ => Some (ModuleTOTP.mkOperInfo (Some (Base32.Encode (lit "Hello") 0))))
            (lit "Hello") (lit "root") (lit "pass") 6 [] (toy_user 0)
            toy_digest_sized eq_refl _ _ eq_refl).
  - vm_compute. repeat split; congruence.
  - vm_compute. split; congruence.
Defined.

(** ** GenerateCode *)

Lemma Encode_whole_alphabet (bytes : list ascii) :
  (length bytes mod 5 = 0)%nat ->
  Forall (fun c => In c Base32.Base32Chars) (Base32.Encode bytes 0).
Proof.
  intros Hmod. destruct (Encode_shape bytes 0) as [_ HE]. rewrite HE.
  unfold effective_len. cbn [Nat.eqb]. rewrite Hmod. cbn [padding_table repeat].
  rewrite app_nil_r. apply Forall_firstn_of. apply Encode_symbols_alphabet.
Qed.

(** X23.  Whatever the host's random source returns, [GenerateCode] draws 10
    bytes, the low 8 bits of the 10 values in the order of the calls, and
    hands on a string of 16 characters of the alphabet, without padding,
    that [Decode] turns back into these 10 bytes. *)
Theorem GenerateCode_secret_decodes (rnd : nat -> Z) :
  let secret := map (fun i => to_char (rnd i)) (seq 0 10) in
  exists shown,
    CommandTOTP.GenerateCode_secret rnd = Ok (secret, shown) /\
    length shown = 16%nat /\
    Forall (fun c => In c Base32.Base32Chars) shown /\
    Base32.Decode shown = Ok secret.
Proof.
  intros secret. exists (Base32.Encode secret 0).
  assert (Hlen : length secret = 10%nat) by reflexivity.
  assert (Hmod : (length secret mod 5 = 0)%nat) by (rewrite Hlen; reflexivity).
  split; [| split; [| split]].
  - unfold CommandTOTP.GenerateCode_secret.
    change (CommandTOTP.GenerateCode_fill (resize zero 10 []) 0 10 rnd) with (Ok secret).
    cbn [bind]. rewrite <- Hlen at 1. rewrite Encode_explicit_length. reflexivity.
  - rewrite Encode_length. unfold effective_len. cbn [Nat.eqb]. rewrite Hlen. reflexivity.
  - apply Encode_whole_alphabet. exact Hmod.
  - apply Decode_Encode_whole. exact Hmod.
Qed.

(** ** A secret that Decode does not decode *)

Lemma Validate_fault (hp : TOTP.HashProvider) (w now : Z) (secret code : list ascii) (f : fault) :
  window_in_range now w -> 1 <= w -> Base32.Decode secret = Undefined f ->
  TOTP.Validate (TOTP.mkTOTP (Some hp) w) now secret code = Undefined f.
Proof.
  intros Hrange Hw Hf. rewrite Validate_range by exact Hrange. cbn [TOTP.Window].
  destruct (Z.to_nat ((now + 30 * w) / 30 - (now - 30 * w) / 30)) as [| n] eqn:En.
  - exfalso. Z.div_mod_to_equations. lia.
  - cbn [TOTP.Validate_loop]. unfold TOTP.Generate. cbn [TOTP.Hash].
    rewrite Hf. reflexivity.
Qed.

(** X22.  With a provider loaded and a window of one step at least, a
    [totpsecret] on which [Decode] is not defined makes the first call of
    [Generate] in [Validate], and with it [OnPreCommand] on any [OPER] of
    that account that carries a token, run into the same undefined
    operation. *)
Theorem OnPreCommand_undecodable_secret
  (hp : TOTP.HashProvider) (w now : Z) (oper_blocks : list ascii -> option ModuleTOTP.OperInfo)
  (name password otp secret : list ascii) (f : fault)
  (rest : list (list ascii)) (user : ModuleTOTP.LocalUser) :
  oper_blocks name = Some (ModuleTOTP.mkOperInfo (Some secret)) ->
  window_in_range now w -> 1 <= w ->
  Base32.Decode secret = Undefined f ->
  TOTP.Validate (TOTP.mkTOTP (Some hp) w) now secret otp = Undefined f /\
  ModuleTOTP.OnPreCommand (ModuleTOTP.mkModule (TOTP.mkTOTP (Some hp) w) oper_blocks) now
    (lit "OPER") (name :: (password ++ " "%char :: otp) :: rest) user true = Undefined f.
Proof.
  intros Hblock Hrange Hw Hf.
  assert (Hv : forall code, TOTP.Validate (TOTP.mkTOTP (Some hp) w) now secret code = Undefined f).
  { intros code. apply Validate_fault; assumption. }
  split; [apply Hv |].
  unfold ModuleTOTP.OnPreCommand.
  cbn [andb length nth ModuleTOTP.oper_blocks ModuleTOTP.totp].
  rewrite str_eqb_refl. cbn [andb Nat.ltb Nat.leb].
  rewrite Hblock. cbn [ModuleTOTP.totpsecret].
  destruct (ModuleTOTP.rfind " "%char (password ++ " "%char :: otp)) as [pos |] eqn:E.
  - rewrite Hv. reflexivity.
  - apply rfind_None in E. exfalso. apply E. apply in_or_app. right. left. reflexivity.
Qed.

Lemma OnPreCommand_undecodable_secret_witness :
  ModuleTOTP.OnPreCommand (toy_module (toy 1) (lit "J")) 200 (lit "OPER")
    [lit "root"; lit "pass 123456"] (toy_user 0) true = Undefined (OutOfRange 0 0).
Proof.
  refine (proj2 (OnPreCommand_undecodable_secret toy_provider 1 200
                   (fun _ => Some (ModuleTOTP.mkOperInfo (Some (lit "J"))))
                   (lit "root") (lit "pass") (lit "123456") (lit "J") (OutOfRange 0 0)
                   [] (toy_user 0) eq_refl _ _ eq_refl)).
  - vm_compute. repeat split; congruence.
  - lia.
Defined.
